(** * eth_mose: a relay of [TokensLocked] events, and a unit converter

    A shallow embedding of [src/script.py] (the bridge event listener) and of
    [src/unit_converter.py] (the denomination converter), with the properties
    of the design document stated and settled against them.

    Python values are embedded as follows: [int] as [Z], [str] as [string],
    [dict] with insertion order as an association list (a [json] object) or,
    when only used as a map, as a [gmap]; a raised exception as the [Raise]
    branch of [result]; calls that reach the outside (the chain node, the HTTP
    endpoint, the clock, the log) through an explicit [World] that scripts the
    answers and records what was done. *)

From Stdlib Require Import ZArith List String Ascii Bool Lia.
From Stdlib Require Import DecimalString DecimalZ.
From stdpp Require Import base gmap strings.

Import ListNotations.
Local Open Scope string_scope.
Local Open Scope Z_scope.

(** ** Python exceptions and results *)

(** The exception classes the two files raise, catch or let through.  All of
    them derive from [Exception]; [KeyboardInterrupt] does not and is not
    part of the model. *)
Inductive urllib3_exn : Type :=
  | MaxRetryError (reason_is_response : bool)
  | ReadError.     (* a ReadTimeoutError or ProtocolError, raised again *)

Inductive exn : Type :=
  | ValueError (msg : string)
  | ConnectionError (msg : string)          (* the builtin one *)
  | RequestException (kind : string)        (* requests.exceptions.* *)
  | Urllib3Error (u : urllib3_exn)          (* urllib3.exceptions.* *)
  | ZeroDivisionError
  | RecursionError
  | OtherException (name : string).

Inductive result (A : Type) : Type :=
  | Ok (a : A)
  | Raise (e : exn).
Arguments Ok {A} a.
Arguments Raise {A} e.

(** A Python [str] is a [string] of characters below 128; [s.isascii()]
    tells whether a [string] is one.  Text with other characters is outside
    the model: where a property depends on what is done to such text, it
    assumes [isascii]. *)
Fixpoint isascii (s : string) : bool :=
  match s with
  | EmptyString => true
  | String c s' => (nat_of_ascii c <? 128)%nat && isascii s'
  end.

(** [str.lower()], which on ASCII text turns [A]..[Z] into [a]..[z] and
    leaves the rest. *)
Definition lower_ascii (c : ascii) : ascii :=
  let n := nat_of_ascii c in
  if (Nat.leb 65 n && Nat.leb n 90)%bool then ascii_of_nat (n + 32)%nat else c.

Fixpoint lower (s : string) : string :=
  match s with
  | EmptyString => EmptyString
  | String c s' => String (lower_ascii c) (lower s')
  end.

(** [s.startswith(p)] *)
Fixpoint startswith (s p : string) : bool :=
  match p, s with
  | EmptyString, _ => true
  | String _ _, EmptyString => false
  | String a p', String b s' => if Ascii.eqb a b then startswith s' p' else false
  end.

(** [str(n)] for a Python [int]: the decimal numeral, with a leading minus
    sign for negative numbers. *)
Definition str_int (n : Z) : string := NilZero.string_of_int (Z.to_int n).

(** [int(s)] for a decimal numeral. *)
Definition int_str (s : string) : option Z :=
  option_map Z.of_int (NilZero.int_of_string s).

(** ** [unit_converter.py] *)

Module UnitConverter.

(** A finite [decimal.Decimal]: the number [coef * 10 ^ dexp].  The sign is
    carried by the coefficient, so a zero has none: [Decimal('-0')], which
    Python compares equal to [Decimal('0')], is not told apart from it. *)
Record Decimal : Type := mkDecimal { coef : Z; dexp : Z }.

(** Numeric comparison, Python's [==] on [Decimal]. *)
Definition dec_eqb (a b : Decimal) : bool :=
  let m := Z.min (dexp a) (dexp b) in
  coef a * 10 ^ (dexp a - m) =? coef b * 10 ^ (dexp b - m).

(** The default context of the [decimal] module, which the module never
    replaces: 28 significant digits, rounding half to even, exponents from
    [Emin] to [Emax], no clamping, and of the signals that an operation here
    can raise only [Overflow] trapped. *)
Definition prec : Z := 28.
Definition Emax : Z := 999999.
Definition Emin : Z := -999999.

(** [Context.Etiny()] and [Context.Etop()]: the least exponent of a
    subnormal result, and the greatest exponent of a result of full
    precision. *)
Definition Etiny : Z := Emin - prec + 1.
Definition Etop : Z := Emax - prec + 1.

Definition Overflow : exn := OtherException "decimal.Overflow".

(** [len(self._int)]: the number of digits of the coefficient. *)
Definition ndigits (c : Z) : Z :=
  Z.of_nat (Decimal.nb_digits (N.to_uint (Z.abs_N c))).

(** [Decimal._fix]: brings a result into the context.  A zero has its
    exponent moved into [Etiny .. Emax].  Another number overflows when its
    leading digit stands above [Emax]; it is rounded when it has more digits
    than the precision allows, or digits below [Etiny]; a number all of whose
    digits are below [Etiny] is first replaced by a single digit 1 just
    below, so that it rounds to zero. *)
Definition _fix (d : Decimal) : result Decimal :=
  if coef d =? 0 then Ok (mkDecimal 0 (Z.min (Z.max (dexp d) Etiny) Emax))
  else
    let n := ndigits (coef d) in
    if n + dexp d - prec >? Etop then Raise Overflow
    else
      let exp_min := Z.max (n + dexp d - prec) Etiny in
      if dexp d <? exp_min then
        let digits := n + dexp d - exp_min in
        let a := if digits <? 0 then 1 else Z.abs (coef d) in
        let k := if digits <? 0 then 1 else exp_min - dexp d in
        let q := a / 10 ^ k in
        let r := a mod 10 ^ k in
        let changed := (2 * r >? 10 ^ k) || ((2 * r =? 10 ^ k) && Z.odd q) in
        let carried := changed && (ndigits (q + 1) >? prec) in
        let coeff := if carried then (q + 1) / 10
                     else if changed then q + 1 else q in
        let exp_min := if carried then exp_min + 1 else exp_min in
        if exp_min >? Etop then Raise Overflow
        else Ok (mkDecimal (Z.sgn (coef d) * coeff) exp_min)
      else Ok d.

(** [Decimal.__mul__] *)
Definition mul (a b : Decimal) : result Decimal :=
  _fix (mkDecimal (coef a * coef b) (dexp a + dexp b)).

(** The loop of [Decimal.__truediv__] that brings an exact quotient as close
    to the ideal exponent as its trailing zeros allow. *)
Fixpoint strip_zeros (fuel : nat) (coeff e ideal : Z) : Z * Z :=
  match fuel with
  | O => (coeff, e)
  | S fuel' =>
      if (e <? ideal) && (coeff mod 10 =? 0)
      then strip_zeros fuel' (coeff / 10) (e + 1) ideal
      else (coeff, e)
  end.

(** [Decimal.__truediv__]; [x / 0] raises [DivisionByZero], which is a
    [ZeroDivisionError], and [0 / 0] raises [InvalidOperation], which is
    not. *)
Definition truediv (a b : Decimal) : result Decimal :=
  if coef b =? 0 then
    if coef a =? 0 then Raise (OtherException "decimal.InvalidOperation")
    else Raise ZeroDivisionError
  else if coef a =? 0 then _fix (mkDecimal 0 (dexp a - dexp b))
  else
    let sign := Z.sgn (coef a) * Z.sgn (coef b) in
    let x := Z.abs (coef a) in
    let y := Z.abs (coef b) in
    let shift := ndigits y - ndigits x + prec + 1 in
    let e := dexp a - dexp b - shift in
    let num := if 0 <=? shift then x * 10 ^ shift else x in
    let den := if 0 <=? shift then y else y * 10 ^ (- shift) in
    let coeff := num / den in
    let remainder := num mod den in
    let '(coeff, e) :=
      if negb (remainder =? 0)
      then ((if coeff mod 5 =? 0 then coeff + 1 else coeff), e)
      else strip_zeros (Z.to_nat (dexp a - dexp b - e)) coeff e (dexp a - dexp b) in
    _fix (mkDecimal (sign * coeff) e).

(** Conversion factors relative to Wei. *)
Definition ETH_UNITS : gmap string Decimal :=
  list_to_map
    [ ("wei", mkDecimal 1 0);
      ("kwei", mkDecimal 1 3);
      ("mwei", mkDecimal 1 6);
      ("gwei", mkDecimal 1 9);
      ("szabo", mkDecimal 1 12);
      ("finney", mkDecimal 1 15);
      ("ether", mkDecimal 1 18) ].

(** The argument [value]: an [int] or a finite [Decimal].  ([float] and
    [str] arguments are outside the model.) *)
Inductive Value : Type :=
  | VInt (n : Z)
  | VDecimal (d : Decimal).

(** [sys.get_int_max_str_digits()]: [str] of an [int] with more digits raises
    [ValueError]. *)
Definition int_max_str_digits : Z := 4300.

(** [Decimal(str(value))]: exact, whatever the number of digits and the
    exponent, once [str] has returned. *)
Definition value_decimal (v : Value) : result Decimal :=
  match v with
  | VInt n =>
      if ndigits n >? int_max_str_digits
      then Raise (ValueError "Exceeds the limit (4300 digits) for integer string conversion")
      else Ok (mkDecimal n 0)
  | VDecimal d => Ok d
  end.

Definition convert_eth_unit (value : Value) (from_unit to_unit : string)
  : result Decimal :=
  let from_unit_lower := lower from_unit in
  let to_unit_lower := lower to_unit in
  match ETH_UNITS !! from_unit_lower with
  | None => Raise (ValueError "Invalid 'from_unit'")
  | Some from_factor =>
      match ETH_UNITS !! to_unit_lower with
      | None => Raise (ValueError "Invalid 'to_unit'")
      | Some to_factor =>
          match value_decimal value with
          | Raise e => Raise e
          | Ok value_decimal =>
              match mul value_decimal from_factor with
              | Raise e => Raise e
              | Ok value_in_wei => truediv value_in_wei to_factor
              end
          end
      end
  end.

End UnitConverter.


(** ** [script.py] *)

Module Script.

(** *** Values *)

(** What [json=] can serialise: the dictionaries the parser builds, with their
    keys in insertion order.  A [float] would be [JFloat m e], for
    [m * 2 ^ e]. *)
#[warnings="-register-all"]
Inductive json : Type :=
  | JNull
  | JInt (n : Z)
  | JFloat (m e : Z)
  | JStr (s : string)
  | JObject (fields : list (string * json)).

(** [d.get(key)] *)
Definition get (d : json) (key : string) : option json :=
  match d with
  | JObject fields => snd <$> List.find (fun kv => String.eqb (fst kv) key) fields
  | _ => None
  end.

(** The truth value of a dictionary in [if parsed_data:]. *)
Definition truthy (d : json) : bool :=
  match d with
  | JObject [] => false
  | JNull => false
  | _ => true
  end.

Definition HexBytes : Type := list Byte.byte.

Definition hex_digit (n : N) : ascii :=
  if (n <? 10)%N then ascii_of_N (48 + n) else ascii_of_N (87 + n).

Fixpoint hex_digits (b : HexBytes) : string :=
  match b with
  | [] => EmptyString
  | x :: b' =>
      let n := Byte.to_N x in
      String (hex_digit (n / 16)) (String (hex_digit (n mod 16)) (hex_digits b'))
  end.

(** [HexBytes.hex()], with the [0x] prefix of the hexbytes releases that
    web3 v6 runs on. *)
Definition hex (b : HexBytes) : string := String.append "0x" (hex_digits b).

(** A raw log as the node hands it over. *)
Record LogReceipt : Type := mkLogReceipt {
  log_address : string;
  log_topics : list HexBytes;
  log_data : HexBytes;
  log_blockNumber : Z;
  log_transactionHash : HexBytes
}.

(** The decoded arguments of
    [TokensLocked(address indexed token, address indexed sender,
                  address recipient, uint256 amount, uint256 destinationChainId)].
    What web3 decodes as a [uint256] is below [2 ^ 256]. *)
Record TokensLockedArgs : Type := mkArgs {
  token : string;
  sender : string;
  recipient : string;
  amount : Z;
  destinationChainId : Z
}.

(** A decoded event, what [get_event_data] returns. *)
Record EventData : Type := mkEventData {
  args : TokensLockedArgs;
  event : string;
  blockNumber : Z;
  transactionHash : HexBytes
}.

(** What the script passes around under the name of a log.  web3 hands both
    kinds over as an [AttributeDict]: a raw log has [topics] and [data], a
    decoded event has [args] and [event] in their place. *)
Inductive LogEntry : Type :=
  | RawLog (l : LogReceipt)
  | DecodedLog (p : EventData).

Coercion RawLog : LogReceipt >-> LogEntry.

(** A bound contract, [web3.eth.contract(address=..., abi=...)]. *)
Record Contract : Type := mkContract {
  contract_address : string;
  contract_abi : string
}.

(** The functions of web3.py that the script relies on and that do not touch
    the network.  [get_event_data] decodes the topics and the data of a raw
    log against the ABI of the event, and raises on a log that does not fit;
    [to_checksum_address] raises [ValueError] on a string that is not an
    address, which is [None] here. *)
Class Web3 : Type := {
  get_event_data : LogReceipt -> result EventData;
  is_address : string -> bool;
  to_checksum_address : string -> option string
}.

(** [contract.events.TokensLocked().process_log(log)], which is
    [get_event_data(codec, abi, log)].  It begins by reading [log['topics']]:
    on an event that is decoded already there is no such key, and it raises
    [KeyError]. *)
Definition process_log `{lib : Web3} (log : LogEntry) : result EventData :=
  match log with
  | RawLog l => get_event_data l
  | DecodedLog _ => Raise (OtherException "KeyError")
  end.

(** *** The outside world *)

Inductive level : Type := INFO | WARNING | ERROR | CRITICAL.

(** What one exchange with the HTTP endpoint comes to.  A response carries
    no [Location] header: an endpoint that redirects is outside the model. *)
Inductive http_outcome : Type :=
  | Response (status_code : Z) (retry_after : option Z) (body_is_json : bool)
  | ConnectFailure   (* no connection could be opened: nothing was sent *)
  | ReadFailure.     (* the connection broke or timed out after sending *)

(** What the node does during one call of [connect()]. *)
Inductive conn_attempt : Type :=
  | ProviderRaises (e : exn)   (* Web3(Web3.WebsocketProvider(url)) raises *)
  | NotConnected               (* the liveness check answers False *)
  | ChainIdRaises (e : exn)    (* live, but reading eth.chain_id raises *)
  | Connected (chain_id : Z).

(** Everything the program does that can be seen from outside. *)
Inductive action : Type :=
  | Log (lvl : level) (msg : string)
  | Sleep (seconds : Z)
  | OpenProvider (wss_url : string)
  | HttpPost (url : string) (body : json).

(** The scripted answers of the outside, each list consumed from its head by
    the call it belongs to, and the record of what was done, oldest first. *)
Record World : Type := mkWorld {
  connects : list conn_attempt;            (* one per [connect()] *)
  liveness : list bool;                    (* [web3.is_connected()], later on *)
  filters : list (option exn);             (* [create_filter(...)] *)
  entries : list (result (list LogReceipt)); (* [eth_getFilterChanges] *)
  http : list http_outcome;                (* one per request on the wire *)
  trace : list action
}.

(** *** Computations: state and exceptions *)

Definition M (A : Type) : Type := World -> result A * World.

Definition ret {A} (a : A) : M A := fun w => (Ok a, w).

Definition raise {A} (e : exn) : M A := fun w => (Raise e, w).

Definition bind {A B} (c : M A) (k : A -> M B) : M B :=
  fun w =>
    match c w with
    | (Ok a, w') => k a w'
    | (Raise e, w') => (Raise e, w')
    end.

Declare Scope py_scope.
Delimit Scope py_scope with py.
Notation "x <- c ;; k" := (bind c (fun x => k))
  (at level 100, c at next level, k at level 200, right associativity) : py_scope.
Notation "c ;; k" := (bind c (fun _ => k))
  (at level 100, k at level 200, right associativity) : py_scope.
Local Open Scope py_scope.

(** [try: body except <classes>: handler], for the classes [caught] accepts. *)
Definition try_except {A} (body : M A) (caught : exn -> bool)
    (handler : exn -> M A) : M A :=
  fun w =>
    match body w with
    | (Ok a, w') => (Ok a, w')
    | (Raise e, w') => if caught e then handler e w' else (Raise e, w')
    end.

(** A computation run for its outcome, raised or not, which is handed over
    as a value. *)
Definition attempt {A} (c : M A) : M (result A) :=
  fun w => match c w with (r, w') => (Ok r, w') end.

Definition emit (a : action) : M unit :=
  fun w => (Ok tt, mkWorld (connects w) (liveness w) (filters w) (entries w)
                           (http w) (trace w ++ [a])%list).

(** [logging.info(...)] and the like.  Messages keep their fixed text; the
    interpolated values are not rendered. *)
Definition logging (lvl : level) (msg : string) : M unit := emit (Log lvl msg).

(** [time.sleep(seconds)] *)
Definition time_sleep (seconds : Z) : M unit := emit (Sleep seconds).

Definition is_Exception (e : exn) : bool := true.

Definition is_RequestException (e : exn) : bool :=
  match e with RequestException _ => true | _ => false end.

(** *** urllib3: [Retry] and the request loop

    [requests] hands every request to urllib3's [urlopen] together with the
    [Retry] object of the adapter in charge.  What follows is the part of
    [urllib3.util.retry.Retry] and of [HTTPConnectionPool.urlopen] that a
    [Retry(total=..., backoff_factor=..., status_forcelist=...)] exercises;
    the counters [connect], [read], [redirect], [status] and [other] stay
    [None], except [read], which the default adapter sets to [False]. *)

Record Retry : Type := mkRetry {
  total : Z;
  read_is_False : bool;
  status_forcelist : list Z;
  backoff_factor : Z;
  allowed_methods : list string;
  history : nat     (* the number of failures recorded so far *)
}.

Definition DEFAULT_ALLOWED_METHODS : list string :=
  ["HEAD"; "GET"; "PUT"; "DELETE"; "OPTIONS"; "TRACE"].

Definition RETRY_AFTER_STATUS_CODES : list Z := [413; 429; 503].

Definition DEFAULT_BACKOFF_MAX : Z := 120.

Definition mem_Z (x : Z) (l : list Z) : bool := existsb (Z.eqb x) l.

Definition mem_string (x : string) (l : list string) : bool :=
  existsb (String.eqb x) l.

(** [Retry._is_method_retryable]; the methods are upper case already. *)
Definition _is_method_retryable (r : Retry) (method : string) : bool :=
  match allowed_methods r with
  | [] => true
  | ms => mem_string method ms
  end.

(** [Retry.is_retry] *)
Definition is_retry (r : Retry) (method : string) (status_code : Z)
    (has_retry_after : bool) : bool :=
  if negb (_is_method_retryable r method) then false
  else if mem_Z status_code (status_forcelist r) then true
  else negb (total r =? 0) && has_retry_after
       && mem_Z status_code RETRY_AFTER_STATUS_CODES.

(** [Retry.is_exhausted]: the counters that are [None], [False] or [0] are
    filtered out before the minimum is taken, so the retries are used up once
    [total] has gone below zero: [total=5] allows a first request and five
    more. *)
Definition is_exhausted (r : Retry) : bool :=
  if total r =? 0 then false else total r <? 0.

(** [Retry.increment], for the failure [o] of a request with [method]. *)
Definition increment (r : Retry) (method : string) (o : http_outcome)
  : result Retry :=
  let new_retry :=
    mkRetry (total r - 1) (read_is_False r) (status_forcelist r)
            (backoff_factor r) (allowed_methods r) (S (history r)) in
  let counted (reason_is_response : bool) :=
    if is_exhausted new_retry
    then Raise (Urllib3Error (MaxRetryError reason_is_response))
    else Ok new_retry in
  match o with
  | ConnectFailure => counted false
  | ReadFailure =>
      if read_is_False r || negb (_is_method_retryable r method)
      then Raise (Urllib3Error ReadError)
      else counted false
  | Response _ _ _ => counted true
  end.

(** [Retry.get_backoff_time] *)
Definition get_backoff_time (r : Retry) : Z :=
  if (history r <=? 1)%nat then 0
  else Z.min DEFAULT_BACKOFF_MAX
             (backoff_factor r * 2 ^ (Z.of_nat (history r) - 1)).

(** [Retry.sleep]: a [Retry-After] header of the response is obeyed, else the
    backoff is slept, when there is one. *)
Definition retry_sleep (r : Retry) (retry_after : option Z) : M unit :=
  match retry_after with
  | Some s => if 0 <? s then time_sleep s
              else let backoff := get_backoff_time r in
                   if backoff <=? 0 then ret tt else time_sleep backoff
  | None => let backoff := get_backoff_time r in
            if backoff <=? 0 then ret tt else time_sleep backoff
  end.

(** One request on the wire: it is recorded, and the endpoint's next scripted
    outcome is what comes back.  An endpoint whose script has run out refuses
    the connection. *)
Definition http_exchange (url : string) (body : json) : M http_outcome :=
  fun w =>
    let w' := mkWorld (connects w) (liveness w) (filters w) (entries w)
                      (tl (http w)) (trace w ++ [HttpPost url body])%list in
    (Ok (hd ConnectFailure (http w)), w').

(** [HTTPConnectionPool.urlopen].  It calls itself for every retry; [depth]
    bounds the nesting. *)
Fixpoint urlopen (depth : nat) (method url : string) (body : json)
    (retries : Retry) : M http_outcome :=
  match depth with
  | O => raise RecursionError
  | S depth' =>
      o <- http_exchange url body ;;
      match o with
      | Response status_code retry_after _ =>
          if is_retry retries method status_code
                      (match retry_after with Some _ => true | None => false end)
          then
            match increment retries method o with
            | Raise e => raise e
            | Ok retries' =>
                retry_sleep retries' retry_after ;;
                urlopen depth' method url body retries'
            end
          else ret o
      | _ =>
          match increment retries method o with
          | Raise e => raise e
          | Ok retries' =>
              retry_sleep retries' None ;;
              urlopen depth' method url body retries'
          end
      end
  end.

(** *** requests: adapters and sessions *)

Record HTTPAdapter : Type := mkHTTPAdapter { max_retries : Retry }.

(** [HTTPAdapter()], whose [max_retries] is [Retry(0, read=False)]. *)
Definition default_adapter : HTTPAdapter :=
  mkHTTPAdapter (mkRetry 0 true [] 0 DEFAULT_ALLOWED_METHODS 0).

(** [self.adapters], an ordered dictionary from URL prefixes to adapters. *)
Definition Session : Type := list (string * HTTPAdapter).

Definition has_key (prefix : string) (s : Session) : bool :=
  existsb (fun kv => String.eqb (fst kv) prefix) s.

(** [Session.mount]: the adapter is stored under its prefix, and the shorter
    prefixes are moved behind it. *)
Definition mount (s : Session) (prefix : string) (adapter : HTTPAdapter)
  : Session :=
  let stored :=
    if has_key prefix s
    then map (fun kv => if String.eqb (fst kv) prefix then (prefix, adapter) else kv) s
    else (s ++ [(prefix, adapter)])%list in
  let shorter kv := (String.length (fst kv) <? String.length prefix)%nat in
  (List.filter (fun kv => negb (shorter kv)) stored
   ++ List.filter shorter stored)%list.

(** [requests.Session()] *)
Definition new_session : Session :=
  mount (mount [] "https://" default_adapter) "http://" default_adapter.

(** [Session.get_adapter], for the address of a request.  The address is
    taken as it is given: what [requests] does to it before (it strips
    leading blanks, and refuses an address without a host) is not
    modelled. *)
Definition get_adapter (s : Session) (url : string) : option HTTPAdapter :=
  snd <$> List.find (fun kv => startswith (lower url) (lower (fst kv))) s.

(** [HTTPAdapter.send]: urllib3's exceptions come out as exceptions of
    [requests].  The request is assumed well formed (it names a host), and
    a response is taken as it is: it has no [Location] header that
    [requests] would follow. *)
Definition adapter_send (a : HTTPAdapter) (method url : string) (body : json)
  : M http_outcome :=
  let retries := max_retries a in
  try_except
    (urlopen (Z.to_nat (total retries) + 2) method url body retries)
    (fun e => match e with Urllib3Error _ => true | _ => false end)
    (fun e =>
       match e with
       | Urllib3Error (MaxRetryError true) => raise (RequestException "RetryError")
       | Urllib3Error ReadError => raise (RequestException "ReadTimeout")
       | _ => raise (RequestException "ConnectionError")
       end).

(** [session.post(url, json=..., headers=..., timeout=10)] *)
Definition session_post (s : Session) (url : string) (body : json)
  : M http_outcome :=
  match get_adapter s url with
  | None => raise (RequestException "InvalidSchema")
  | Some a => adapter_send a "POST" url body
  end.

(** [response.raise_for_status()] *)
Definition raise_for_status (response : http_outcome) : M unit :=
  match response with
  | Response status_code _ _ =>
      if (400 <=? status_code) && (status_code <? 600)
      then raise (RequestException "HTTPError")
      else ret tt
  | _ => ret tt
  end.

(** [response.json()], which raises [requests.exceptions.JSONDecodeError]. *)
Definition response_json (response : http_outcome) : M unit :=
  match response with
  | Response _ _ true => ret tt
  | _ => raise (RequestException "JSONDecodeError")
  end.

(** *** [RelayerService] *)

Record RelayerService : Type := mkRelayerService {
  api_url : string;
  session : Session
}.

(** [RelayerService.__init__] *)
Definition RelayerService_init (api_url : string) : result RelayerService :=
  if String.eqb api_url "" then
    Raise (ValueError "Destination relayer API URL is not configured.")
  else
    let retries := mkRetry 5 false [502; 503; 504] 1 DEFAULT_ALLOWED_METHODS 0 in
    Ok (mkRelayerService api_url
          (mount new_session "https://" (mkHTTPAdapter retries))).

(** [RelayerService.relay_transaction_data] *)
Definition relay_transaction_data (self : RelayerService) (event_data : json)
  : M bool :=
  try_except
    (logging INFO "Relaying event data" ;;
     response <- session_post (session self) (api_url self) event_data ;;
     raise_for_status response ;;
     response_json response ;;
     logging INFO "Successfully relayed transaction" ;;
     ret true)
    is_RequestException
    (fun e =>
       logging ERROR "Failed to relay transaction data" ;;
       ret false).

(** *** The components that talk to the chain *)

Section Components.
Context `{lib : Web3}.

Definition lift {A} (r : result A) : M A := fun w => (r, w).

(** **** [BlockchainConnector] *)

(** [web3] is [None] until a provider has been built; what is kept of the
    provider is the address it was built for. *)
Record BlockchainConnector : Type := mkBlockchainConnector {
  wss_url : string;
  web3 : option string
}.

(** [BlockchainConnector.__init__] *)
Definition BlockchainConnector_init (wss_url : string)
  : result BlockchainConnector :=
  if String.eqb wss_url "" then
    Raise (ValueError "WebSocket URL (SOURCE_CHAIN_WSS_URL) is not configured.")
  else Ok (mkBlockchainConnector wss_url None).

(** [Web3(Web3.WebsocketProvider(url))] and what the node answers while
    [connect()] runs.  A node whose script has run out is not there. *)
Definition open_provider (url : string) : M conn_attempt :=
  fun w =>
    (Ok (hd NotConnected (connects w)),
     mkWorld (tl (connects w)) (liveness w) (filters w) (entries w) (http w)
             (trace w ++ [OpenProvider url])%list).

(** [BlockchainConnector.connect].  The method assigns [self.web3] before it
    checks the connection, so the connector is returned along with the
    outcome, raised or not. *)
Definition connect (self : BlockchainConnector)
  : M (BlockchainConnector * result unit) :=
  logging INFO "Attempting to connect to blockchain node" ;;
  a <- open_provider (wss_url self) ;;
  let self' := mkBlockchainConnector (wss_url self) (Some (wss_url self)) in
  match a with
  | ProviderRaises e =>
      logging ERROR "An error occurred while connecting to the node" ;;
      ret (self, Raise e)
  | NotConnected =>
      logging ERROR "An error occurred while connecting to the node" ;;
      ret (self', Raise (ConnectionError
             "Failed to connect to the blockchain node after initialization."))
  | ChainIdRaises e =>
      logging ERROR "An error occurred while connecting to the node" ;;
      ret (self', Raise e)
  | Connected _ =>
      logging INFO "Successfully connected to chain ID" ;;
      ret (self', Ok tt)
  end.

(** [self.web3.is_connected()]: the node's next answer. *)
Definition web3_is_connected : M bool :=
  fun w =>
    (Ok (hd false (liveness w)),
     mkWorld (connects w) (tl (liveness w)) (filters w) (entries w) (http w)
             (trace w)).

(** [BlockchainConnector.is_connected] *)
Definition is_connected (self : BlockchainConnector) : M bool :=
  match web3 self with
  | None => ret false
  | Some _ => web3_is_connected
  end.

(** [BlockchainConnector.get_contract] *)
Definition get_contract (self : BlockchainConnector) (address abi : string)
  : M Contract :=
  live <- is_connected self ;;
  if negb live then
    logging ERROR "Cannot get contract, not connected to the blockchain." ;;
    raise (ConnectionError "Not connected to the blockchain.")
  else
    match to_checksum_address address with
    | None => raise (ValueError "not an address")
    | Some checksum_address => ret (mkContract checksum_address abi)
    end.

(** **** [EventParser] *)

Record EventParser : Type := mkEventParser { parser_abi : string }.

(** [EventParser.parse_tokens_locked_event] *)
Definition parse_tokens_locked_event (self : EventParser)
    (event_log : LogEntry) : M json :=
  try_except
    (processed_log <- lift (process_log event_log) ;;
     ret (JObject
       [ ("transactionHash", JStr (hex (transactionHash processed_log)));
         ("blockNumber", JInt (blockNumber processed_log));
         ("event", JStr (event processed_log));
         ("args", JObject
            [ ("token", JStr (token (args processed_log)));
              ("sender", JStr (sender (args processed_log)));
              ("recipient", JStr (recipient (args processed_log)));
              ("amount", JStr (str_int (amount (args processed_log))));
              ("destinationChainId",
                 JInt (destinationChainId (args processed_log))) ]) ]))
    is_Exception
    (fun e =>
       logging ERROR "Failed to parse event log" ;;
       ret (JObject [])).

(** **** [BridgeEventListener] *)

Record BridgeEventListener : Type := mkBridgeEventListener {
  config : gmap string string;
  connector : BlockchainConnector;
  parser : EventParser;
  relayer : RelayerService;
  contract : option Contract
}.

(** [config[key]] *)
Definition getitem (config : gmap string string) (key : string)
  : result string :=
  match config !! key with
  | Some v => Ok v
  | None => Raise (OtherException "KeyError")
  end.

(** [BridgeEventListener.__init__] *)
Definition BridgeEventListener_init (config : gmap string string)
  : result BridgeEventListener :=
  match getitem config "wss_url" with
  | Raise e => Raise e
  | Ok url =>
    match BlockchainConnector_init url with
    | Raise e => Raise e
    | Ok connector =>
      match getitem config "abi" with
      | Raise e => Raise e
      | Ok abi =>
        match getitem config "relayer_url" with
        | Raise e => Raise e
        | Ok relayer_url =>
          match RelayerService_init relayer_url with
          | Raise e => Raise e
          | Ok relayer =>
              Ok (mkBridgeEventListener config connector (mkEventParser abi)
                                        relayer None)
          end
        end
      end
    end
  end.

(** [BridgeEventListener._event_handler] *)
Definition _event_handler (self : BridgeEventListener) (event_log : LogEntry)
  : M unit :=
  logging INFO "Received new event log for transaction" ;;
  parsed_data <- parse_tokens_locked_event (parser self) event_log ;;
  if truthy parsed_data
  then (_ <- relay_transaction_data (relayer self) parsed_data ;; ret tt)
  else ret tt.

(** [for x in xs: body(x)] *)
Fixpoint for_each {A} (xs : list A) (body : A -> M unit) : M unit :=
  match xs with
  | [] => ret tt
  | x :: xs' => body x ;; for_each xs' body
  end.

(** [self.contract.events.TokensLocked.create_filter(fromBlock='latest')] *)
Definition create_filter : M unit :=
  fun w =>
    let w' := mkWorld (connects w) (liveness w) (tl (filters w)) (entries w)
                      (http w) (trace w) in
    match hd None (filters w) with
    | None => (Ok tt, w')
    | Some e => (Raise e, w')
    end.

(** [eth.get_filter_changes(filter_id)]: the raw logs that the node has
    for the filter since it was last asked; a node with nothing scripted has
    nothing new. *)
Definition get_filter_changes : M (list LogReceipt) :=
  fun w =>
    (hd (Ok []) (entries w),
     mkWorld (connects w) (liveness w) (filters w) (tl (entries w)) (http w)
             (trace w)).

(** [[formatter(entry) for entry in log_entries]], where the formatter that
    [create_filter] gives the filter of a contract event is
    [get_event_data(codec, abi)]: the filter decodes what the node sends, and
    the first log that does not fit the event makes it raise. *)
Fixpoint format_log_entries (log_entries : list LogReceipt)
  : result (list LogEntry) :=
  match log_entries with
  | [] => Ok []
  | l :: rest =>
      match get_event_data l with
      | Raise e => Raise e
      | Ok p =>
          match format_log_entries rest with
          | Raise e => Raise e
          | Ok ps => Ok (DecodedLog p :: ps)
          end
      end
  end.

(** [event_filter.get_new_entries()] *)
Definition get_new_entries : M (list LogEntry) :=
  log_entries <- get_filter_changes ;;
  lift (format_log_entries log_entries).

(** Where [start_listening] stands.  [Connecting] is the call of [connect()],
    [Subscribing] the rest of the set-up up to the filter, [Polling] one turn
    of the inner [while], and [Reconnecting e] the [except] clause entered
    with the exception [e]. *)
Inductive Phase : Type :=
  | Connecting
  | Subscribing
  | Polling
  | Reconnecting (e : exn).

(** The set-up between [connect()] and the inner loop.  [self.contract] is
    assigned before the filter is asked for, so the listener is returned
    along with the outcome of what comes after, raised or not; what raises
    before leaves the listener as it was. *)
Definition subscribe (self : BridgeEventListener)
  : M (BridgeEventListener * result unit) :=
  contract_address <- lift (getitem (config self) "contract_address") ;;
  (if negb (is_address contract_address)
   then raise (ValueError "Invalid BRIDGE_CONTRACT_ADDRESS")
   else ret tt) ;;
  abi <- lift (getitem (config self) "abi") ;;
  c <- get_contract (connector self) contract_address abi ;;
  let self' := mkBridgeEventListener (config self) (connector self)
                 (parser self) (relayer self) (Some c) in
  outcome <- attempt
    (create_filter ;;
     logging INFO "Starting to listen for 'TokensLocked' events on contract") ;;
  ret (self', outcome).

(** The body of the inner [while], once its condition held. *)
Definition poll (self : BridgeEventListener) : M unit :=
  new_entries <- get_new_entries ;;
  for_each new_entries (_event_handler self) ;;
  time_sleep 5.

(** One move of [start_listening].  The [finally] clause runs whenever the
    [try] statement is left, by the [except] clause or by the end of the
    inner loop. *)
Definition step (self : BridgeEventListener) (ph : Phase)
  : World -> (BridgeEventListener * Phase) * World :=
  fun w =>
    match ph with
    | Connecting =>
        match connect (connector self) w with
        | (Ok (c, r), w') =>
            let self' := mkBridgeEventListener (config self) c (parser self)
                           (relayer self) (contract self) in
            match r with
            | Ok _ => ((self', Subscribing), w')
            | Raise e => ((self', Reconnecting e), w')
            end
        | (Raise e, w') => ((self, Reconnecting e), w')
        end
    | Subscribing =>
        match subscribe self w with
        | (Ok (self', Ok _), w') => ((self', Polling), w')
        | (Ok (self', Raise e), w') => ((self', Reconnecting e), w')
        | (Raise e, w') => ((self, Reconnecting e), w')
        end
    | Polling =>
        match is_connected (connector self) w with
        | (Ok true, w') =>
            match poll self w' with
            | (Ok _, w'') => ((self, Polling), w'')
            | (Raise e, w'') => ((self, Reconnecting e), w'')
            end
        | (Ok false, w') =>
            match logging WARNING "Connection lost or loop interrupted." w' with
            | (_, w'') => ((self, Connecting), w'')
            end
        | (Raise e, w') => ((self, Reconnecting e), w')
        end
    | Reconnecting e =>
        match (logging ERROR
                 "An error occurred in the listening loop. Attempting to reconnect in 30 seconds..." ;;
               time_sleep 30 ;;
               logging WARNING "Connection lost or loop interrupted.") w with
        | (_, w') => ((self, Connecting), w')
        end
    end.

(** [start_listening], for [n] moves from the phase [ph]: the phases gone
    through, the first one included, and where things stand then. *)
Fixpoint run (n : nat) (self : BridgeEventListener) (ph : Phase) (w : World)
  : list Phase * (BridgeEventListener * World) :=
  match n with
  | O => ([ph], (self, w))
  | S n' =>
      match step self ph w with
      | ((self', ph'), w') =>
          match run n' self' ph' w' with
          | (phs, final) => (ph :: phs, final)
          end
      end
  end.

(** [BridgeEventListener.start_listening], cut off after [n] moves. *)
Definition start_listening (n : nat) (self : BridgeEventListener) : M unit :=
  fun w => (Ok tt, snd (snd (run n self Connecting w))).

(** **** [main] *)

(** [os.getenv(var)] read as a condition: unset and empty are both false. *)
Definition getenv_truthy (env : gmap string string) (var : string) : bool :=
  match env !! var with
  | None => false
  | Some v => negb (String.eqb v "")
  end.

Definition required_vars : list string :=
  ["SOURCE_CHAIN_WSS_URL"; "BRIDGE_CONTRACT_ADDRESS";
   "DESTINATION_RELAYER_API_URL"].

Definition BRIDGE_CONTRACT_ABI : string := "TokensLocked".

(** [main], with the listening loop cut off after [n] moves. *)
Definition main (n : nat) (env : gmap string string) : M unit :=
  if existsb (fun var => negb (getenv_truthy env var)) required_vars then
    logging ERROR
      "One or more required environment variables are missing. Please check your .env file." ;;
    logging ERROR
      "Required: SOURCE_CHAIN_WSS_URL, BRIDGE_CONTRACT_ADDRESS, DESTINATION_RELAYER_API_URL" ;;
    ret tt
  else
    let config : gmap string string :=
      <[ "wss_url" := default "" (env !! "SOURCE_CHAIN_WSS_URL") ]>
      (<[ "contract_address" := default "" (env !! "BRIDGE_CONTRACT_ADDRESS") ]>
      (<[ "relayer_url" := default "" (env !! "DESTINATION_RELAYER_API_URL") ]>
      (<[ "abi" := BRIDGE_CONTRACT_ABI ]> ∅))) in
    listener <- lift (BridgeEventListener_init config) ;;
    try_except
      (start_listening n listener)
      is_Exception
      (fun e => logging CRITICAL "A critical, unrecoverable error occurred").

End Components.

(** What a trace shows: the requests put on the wire, the waits, the
    connections opened. *)
Fixpoint posts (t : list action) : nat :=
  match t with
  | [] => O
  | HttpPost _ _ :: t' => S (posts t')
  | _ :: t' => posts t'
  end.

Fixpoint sleeps (t : list action) : list Z :=
  match t with
  | [] => []
  | Sleep s :: t' => s :: sleeps t'
  | _ :: t' => sleeps t'
  end.

(** The moves from one given phase to another in a list of phases. *)
Definition is_Connecting (ph : Phase) : bool :=
  match ph with Connecting => true | _ => false end.

Definition is_Reconnecting (ph : Phase) : bool :=
  match ph with Reconnecting _ => true | _ => false end.

Definition is_Subscribing (ph : Phase) : bool :=
  match ph with Subscribing => true | _ => false end.

Fixpoint transitions (from to : Phase -> bool) (phs : list Phase) : nat :=
  match phs with
  | a :: ((b :: _) as rest) =>
      ((if from a && to b then 1 else 0) + transitions from to rest)%nat
  | _ => O
  end.

(** A node that fails to connect. *)
Definition is_failure (a : conn_attempt) : bool :=
  match a with Connected _ => false | _ => true end.

End Script.

(** ** Concrete inputs

    A small decoder in the layout of the event (three topics of 32 bytes, the
    signature first; three words of data) and an address check on the
    hexadecimal form, to run the definitions on concrete logs. *)

Module Sample.
Import Script.

Definition be_int (b : HexBytes) : Z :=
  fold_left (fun acc x => acc * 256 + Z.of_N (Byte.to_N x)) b 0.

Definition word (n : Z) : HexBytes :=
  map (fun i => default Byte.x00
                  (Byte.of_N (Z.to_N ((n / 256 ^ (31 - Z.of_nat i)) mod 256))))
      (seq 0 32).

Definition address_of_word (w : HexBytes) : string := hex (skipn 12 w).

Definition decode_log (l : LogReceipt) : result EventData :=
  match log_topics l with
  | [_; t; s] =>
      if ((length t =? 32) && (length s =? 32)
          && (length (log_data l) =? 96))%nat
      then Ok (mkEventData
                 (mkArgs (address_of_word t) (address_of_word s)
                         (address_of_word (firstn 32 (log_data l)))
                         (be_int (firstn 32 (skipn 32 (log_data l))))
                         (be_int (skipn 64 (log_data l))))
                 "TokensLocked" (log_blockNumber l) (log_transactionHash l))
      else Raise (OtherException "InsufficientDataBytes")
  | _ => Raise (OtherException "LogTopicError")
  end.

Definition is_hex_char (c : ascii) : bool :=
  let n := nat_of_ascii c in
  ((48 <=? n) && (n <=? 57) || (97 <=? n) && (n <=? 102)
   || (65 <=? n) && (n <=? 70))%nat.

Fixpoint all_hex (s : string) : bool :=
  match s with
  | EmptyString => true
  | String c s' => is_hex_char c && all_hex s'
  end.

Definition strip_0x (s : string) : string :=
  if startswith (lower s) "0x" then String.substring 2 (String.length s - 2) s
  else s.

Definition hex_address (s : string) : bool :=
  (String.length (strip_0x s) =? 40)%nat && all_hex (strip_0x s).

Definition normalize_address (s : string) : option string :=
  if hex_address s then Some (String.append "0x" (lower (strip_0x s))) else None.

#[export] Instance decoder : Web3 := {|
  get_event_data := decode_log;
  is_address := hex_address;
  to_checksum_address := normalize_address
|}.

Definition token_address : Z := 0x1111111111111111111111111111111111111111.
Definition sender_address : Z := 0x2222222222222222222222222222222222222222.
Definition recipient_address : Z := 0x3333333333333333333333333333333333333333.

(** A log of the event with the given amount, for chain 137. *)
Definition locked_log (amount : Z) : LogReceipt :=
  mkLogReceipt "0x00000000000000000000000000000000000000b1"
    [word 0xabcdef; word token_address; word sender_address]
    (word recipient_address ++ word amount ++ word 137)%list
    19000000 (word 0xfeed).

(** The same log with the second indexed topic missing. *)
Definition short_log : LogReceipt :=
  mkLogReceipt "0x00000000000000000000000000000000000000b1"
    [word 0xabcdef; word token_address]
    (word recipient_address ++ word 5 ++ word 137)%list
    19000000 (word 0xfeed).

Definition quiet (h : list http_outcome) : World := mkWorld [] [] [] [] h [].

Definition relayer_at (url : string) : RelayerService :=
  mkRelayerService url
    (mount new_session "https://"
       (mkHTTPAdapter (mkRetry 5 false [502; 503; 504] 1 DEFAULT_ALLOWED_METHODS 0))).

Definition listener_at (url : string) (web3 : option string)
  : BridgeEventListener :=
  mkBridgeEventListener
    (<[ "wss_url" := "wss://node.example" ]>
     (<[ "contract_address" := "0x00000000000000000000000000000000000000b1" ]>
     (<[ "relayer_url" := url ]>
     (<[ "abi" := BRIDGE_CONTRACT_ABI ]> ∅))))
    (mkBlockchainConnector "wss://node.example" web3)
    (mkEventParser BRIDGE_CONTRACT_ABI)
    (relayer_at url)
    None.

End Sample.

(** ** Properties *)

Import UnitConverter Script.
Local Open Scope py_scope.

(** The world [w] with [t] added at the end of its trace. *)
Definition logged (w : World) (t : list action) : World :=
  mkWorld (connects w) (liveness w) (filters w) (entries w) (http w)
          (trace w ++ t)%list.

(** The world [w] after the actions [t], each request of [t] having used up
    one scripted outcome of the endpoint. *)
Definition after (w : World) (t : list action) : World :=
  mkWorld (connects w) (liveness w) (filters w) (entries w)
          (skipn (posts t) (http w)) (trace w ++ t)%list.

(** The [Retry] object that [increment] builds. *)
Definition bump (r : Retry) : Retry :=
  mkRetry (total r - 1) (read_is_False r) (status_forcelist r)
          (backoff_factor r) (allowed_methods r) (S (history r)).

(** What [retry_sleep] sleeps when there is no [Retry-After] header. *)
Definition backoff_sleep (r : Retry) : list Z :=
  if get_backoff_time r <=? 0 then [] else [get_backoff_time r].

(** The waits of [k] retries in a row that start from [r]. *)
Fixpoint backoffs (r : Retry) (k : nat) : list Z :=
  match k with
  | O => []
  | S k' => (backoff_sleep (bump r) ++ backoffs (bump r) k')%list
  end.

(** The requests and the waits of [k] attempts in a row that start from
    [r]. *)
Fixpoint attempts (url : string) (body : json) (r : Retry) (k : nat)
  : list action :=
  match k with
  | O => []
  | S k' =>
      HttpPost url body ::
      match k' with
      | O => []
      | S _ => (map Sleep (backoff_sleep (bump r))
                ++ attempts url body (bump r) k')%list
      end
  end.

(** What the policy of the relayer puts on the wire when every attempt but
    the last fails to connect: six requests, the second at once, the others
    after 2, 4, 8 and 16 seconds. *)
Definition schedule (url : string) (body : json) : list action :=
  [HttpPost url body; HttpPost url body; Sleep 2; HttpPost url body; Sleep 4;
   HttpPost url body; Sleep 8; HttpPost url body; Sleep 16; HttpPost url body].

(** The failures the design calls transient: the three gateway statuses and
    the failures of the connection itself. *)
Definition transient (o : http_outcome) : bool :=
  match o with
  | Response status_code _ _ => mem_Z status_code [502; 503; 504]
  | ConnectFailure => true
  | ReadFailure => true
  end.

(** What [session.post(url, json=body)] may leave in the trace: requests
    for [url] with [body], and waits. *)
Definition wire (url : string) (body : json) (a : action) : Prop :=
  a = HttpPost url body \/ exists s, a = Sleep s.

(** The last line that [relay_transaction_data] logs. *)
Definition relay_report (ok : bool) : action :=
  if ok then Log INFO "Successfully relayed transaction"
  else Log ERROR "Failed to relay transaction data".

(** The retry policy that [RelayerService.__init__] mounts. *)
Definition relay_retries : Retry :=
  mkRetry 5 false [502; 503; 504] 1 DEFAULT_ALLOWED_METHODS 0.

(** What [relay_transaction_data] returns for what [session.post] came to:
    [True] for a response whose status [raise_for_status] lets through and
    whose body [json()] can read. *)
Definition delivered (res : result http_outcome) : bool :=
  match res with
  | Ok (Response status_code _ body_is_json) =>
      negb ((400 <=? status_code) && (status_code <? 600)) && body_is_json
  | _ => false
  end.

(** What [urlopen] ends with when the exchange that came to [o] is the last
    one of a [POST]. *)
Definition last_exchange (o : http_outcome) : result http_outcome :=
  match o with
  | ReadFailure => Raise (Urllib3Error ReadError)
  | _ => Ok o
  end.

(** Whether [process_log] decodes a log. *)
Definition decodes `{lib : Web3} (l : LogEntry) : bool :=
  match process_log l with
  | Ok _ => true
  | Raise _ => false
  end.

(** What the handler leaves in the trace for an entry that the parser does
    not decode. *)
Definition skipped : list action :=
  [Log INFO "Received new event log for transaction";
   Log ERROR "Failed to parse event log"].

(** An action that reaches the node at [wss] and nobody else: nothing goes
    out to an HTTP endpoint. *)
Definition node_only (wss : string) (a : action) : Prop :=
  match a with
  | HttpPost _ _ => False
  | OpenProvider u => u = wss
  | _ => True
  end.

(** A computation that, whatever the world and whatever it returns, only adds
    to the trace, adds nothing that reaches another party than the node at
    [wss], and leaves the answers of the endpoint where they are. *)
Definition chatter (wss : string) {A} (c : M A) : Prop :=
  forall w, exists t,
    trace (snd (c w)) = (trace w ++ t)%list /\ Forall (node_only wss) t /\
    http (snd (c w)) = http w.

(** The statuses on which [requests] follows the [Location] header of a
    response, when there is one. *)
Definition redirect_status (o : http_outcome) : bool :=
  match o with
  | Response status_code _ _ => mem_Z status_code [301; 302; 303; 307; 308]
  | _ => false
  end.

(** A host name that [requests] and urllib3 take as it stands: labels of 1
    to 63 lower-case letters and digits with dots between them.  [len] is
    the length of the label that is being read. *)
Definition is_lower_alnum (c : ascii) : bool :=
  let n := nat_of_ascii c in
  ((48 <=? n) && (n <=? 57) || (97 <=? n) && (n <=? 122))%nat.

Fixpoint host_labels (s : string) (len : nat) : bool :=
  match s with
  | EmptyString => (0 <? len)%nat
  | String c s' =>
      if Ascii.eqb c "." then (0 <? len)%nat && host_labels s' 0
      else is_lower_alnum c && (len <? 63)%nat && host_labels s' (S len)
  end.

Definition plain_host (s : string) : bool := host_labels s 0.

(** A path that is sent as it stands: nothing, or a slash followed by
    letters, digits, slashes and the marks [-], [.], [_] and [~]. *)
Definition is_path_char (c : ascii) : bool :=
  let n := nat_of_ascii c in
  ((48 <=? n) && (n <=? 57) || (97 <=? n) && (n <=? 122)
   || (65 <=? n) && (n <=? 90)
   || (n =? 45) || (n =? 46) || (n =? 47) || (n =? 95) || (n =? 126))%nat.

Fixpoint all_path_chars (s : string) : bool :=
  match s with
  | EmptyString => true
  | String c s' => is_path_char c && all_path_chars s'
  end.

Definition plain_path (s : string) : bool :=
  match s with
  | EmptyString => true
  | String c s' => Ascii.eqb c "/" && all_path_chars s'
  end.

(** A scheme as it is commonly written: lower-case letters, at least one. *)
Definition is_lower_letter (c : ascii) : bool :=
  let n := nat_of_ascii c in ((97 <=? n) && (n <=? 122))%nat.

Fixpoint all_lower_letters (s : string) : bool :=
  match s with
  | EmptyString => true
  | String c s' => is_lower_letter c && all_lower_letters s'
  end.

Definition plain_scheme (s : string) : bool :=
  negb (String.eqb s "") && all_lower_letters s.

(** *** The unit converter *)

Lemma convert_one_ether_to_wei :
  exists d, convert_eth_unit (VInt 1) "ether" "wei" = Ok d /\
            dec_eqb d (mkDecimal (10 ^ 18) 0) = true.
Proof. exists (mkDecimal 1 18). split; vm_compute; reflexivity. Qed.

Lemma ETH_UNITS_coef (u : string) (f : Decimal) :
  ETH_UNITS !! u = Some f -> coef f = 1.
Proof.
  unfold ETH_UNITS. intros E. apply elem_of_list_to_map_2 in E.
  repeat (apply elem_of_cons in E as [E|E]; [injection E as _ ->; reflexivity|]).
  apply elem_of_nil in E. destruct E.
Qed.

Lemma ETH_UNITS_dexp (u : string) (f : Decimal) :
  ETH_UNITS !! u = Some f -> 0 <= dexp f <= 18.
Proof.
  unfold ETH_UNITS. intros E. apply elem_of_list_to_map_2 in E.
  repeat (apply elem_of_cons in E as [E|E]; [injection E as _ ->; cbn; lia|]).
  apply elem_of_nil in E. destruct E.
Qed.

Lemma strip_zeros_pow (k : nat) (x ideal : Z) :
  strip_zeros k (x * 10 ^ Z.of_nat k) (ideal - Z.of_nat k) ideal = (x, ideal).
Proof.
  induction k as [|k IH].
  - cbn [strip_zeros]. f_equal; [apply Z.mul_1_r|apply Z.sub_0_r].
  - cbn [strip_zeros].
    assert (x * 10 ^ Z.of_nat (S k) = (x * 10 ^ Z.of_nat k) * 10) as ->.
    { rewrite Nat2Z.inj_succ, Z.pow_succ_r by lia. ring. }
    rewrite Z_mod_mult, Z_div_mult by lia.
    replace (ideal - Z.of_nat (S k) <? ideal) with true
      by (symmetry; apply Z.ltb_lt; lia).
    cbn [andb Z.eqb].
    replace (ideal - Z.of_nat (S k) + 1) with (ideal - Z.of_nat k) by lia.
    exact IH.
Qed.

Lemma ndigits_abs (n : Z) : ndigits (Z.abs n) = ndigits n.
Proof. unfold ndigits. destruct n; reflexivity. Qed.

(** A number of at most 28 digits whose digits all stand between [Etiny] and
    [Emax] is in the context already: [_fix] leaves it as it is. *)
Lemma _fix_exact (c e : Z) :
  ndigits c <= 28 -> Etiny <= e -> e + ndigits c - 1 <= Emax ->
  _fix (mkDecimal c e) = Ok (mkDecimal c e).
Proof.
  intros Hn Hlo Hhi. unfold _fix. cbn [coef dexp].
  destruct (Z.eqb_spec c 0) as [->|Hc].
  - change (ndigits 0) with 1 in Hhi. do 2 f_equal. lia.
  - unfold Etop, Etiny, Emin, Emax, prec in *.
    rewrite Z.gtb_ltb.
    destruct (Z.ltb_spec (999999 - 28 + 1) (ndigits c + e - 28)); [lia|].
    destruct (Z.ltb_spec e (Z.max (ndigits c + e - 28) (-999999 - 28 + 1)));
      [lia|reflexivity].
Qed.

(** The quotient by a power of ten of a number of at most 30 digits is
    exact, and has the ideal exponent. *)
Lemma truediv_by_unit (c e eg : Z) :
  c <> 0 -> ndigits c <= 30 ->
  truediv (mkDecimal c e) (mkDecimal 1 eg) = _fix (mkDecimal c (e - eg)).
Proof.
  intros Hc Hn. unfold truediv. cbn [coef dexp]. cbn [Z.eqb].
  destruct (Z.eqb_spec c 0) as [|_]; [contradiction|].
  change (Z.abs 1) with 1. change (ndigits 1) with 1.
  change (Z.sgn 1) with 1. rewrite ndigits_abs. unfold prec.
  set (shift := 1 - ndigits c + 28 + 1).
  assert (0 <= shift) as Hs by (unfold shift; lia).
  destruct (Z.leb_spec 0 shift); [|lia].
  rewrite Z.div_1_r, Z.mod_1_r. cbn [Z.eqb negb].
  set (ideal := e - eg).
  replace (Z.to_nat (ideal - (ideal - shift))) with (Z.to_nat shift) by lia.
  replace (ideal - shift) with (ideal - Z.of_nat (Z.to_nat shift)) by lia.
  replace (Z.abs c * 10 ^ shift)
    with (Z.abs c * 10 ^ Z.of_nat (Z.to_nat shift))
    by (rewrite Z2Nat.id by lia; reflexivity).
  rewrite strip_zeros_pow.
  replace (Z.sgn c * 1 * Z.abs c) with c by (rewrite Z.mul_1_r; lia).
  reflexivity.
Qed.

Lemma truediv_zero_by_unit (e eg : Z) :
  truediv (mkDecimal 0 e) (mkDecimal 1 eg) = _fix (mkDecimal 0 (e - eg)).
Proof. reflexivity. Qed.

(** The arithmetic of a conversion between two factors with coefficient 1,
    on at most 28 digits that stay between [Etiny] and [Emax]: neither the
    product nor the quotient rounds. *)
Lemma scale_by_units (d f g : Decimal) :
  coef f = 1 -> coef g = 1 -> ndigits (coef d) <= 28 ->
  Etiny <= dexp d + dexp f ->
  dexp d + dexp f + ndigits (coef d) - 1 <= Emax ->
  Etiny <= dexp d + dexp f - dexp g ->
  dexp d + dexp f - dexp g + ndigits (coef d) - 1 <= Emax ->
  mul d f = Ok (mkDecimal (coef d) (dexp d + dexp f)) /\
  truediv (mkDecimal (coef d) (dexp d + dexp f)) g
  = Ok (mkDecimal (coef d) (dexp d + dexp f - dexp g)).
Proof.
  intros Hf Hg Hn Hlo1 Hhi1 Hlo2 Hhi2.
  destruct f as [cf ef], g as [cg eg], d as [n e0].
  cbn [coef dexp] in *. subst cf cg. split.
  - unfold mul. cbn [coef dexp]. rewrite Z.mul_1_r. apply _fix_exact; assumption.
  - destruct (Z.eq_dec n 0) as [->|Hnz].
    + rewrite truediv_zero_by_unit. apply _fix_exact; assumption.
    + rewrite truediv_by_unit by lia. apply _fix_exact; assumption.
Qed.

Lemma convert_known_units (value : Value) (from_unit to_unit : string)
    (f g d : Decimal) :
  ETH_UNITS !! lower from_unit = Some f ->
  ETH_UNITS !! lower to_unit = Some g ->
  value_decimal value = Ok d ->
  convert_eth_unit value from_unit to_unit
  = match mul d f with
    | Raise e => Raise e
    | Ok value_in_wei => truediv value_in_wei g
    end.
Proof.
  intros Ef Eg Ed. unfold convert_eth_unit. rewrite Ef, Eg, Ed. reflexivity.
Qed.

Lemma ndigits_pos (c : Z) : 1 <= ndigits c.
Proof.
  unfold ndigits.
  destruct (Decimal.nb_digits (N.to_uint (Z.abs_N c))) eqn:E; [|lia].
  apply DecimalFacts.nb_digits_0 in E.
  destruct (Z.abs_N c) as [|p]; [discriminate E|].
  exfalso. exact (DecimalPos.Unsigned.to_uint_nonnil p E).
Qed.

(** Up to 28 digits the identity does hold, for integers and for every unit:
    nothing is rounded. *)
Lemma convert_identity_up_to_28_digits (n : Z) (u : string) (f : Decimal) :
  ETH_UNITS !! lower u = Some f ->
  ndigits n <= 28 ->
  convert_eth_unit (VInt n) u u = Ok (mkDecimal n 0).
Proof.
  intros Eu Hn.
  assert (value_decimal (VInt n) = Ok (mkDecimal n 0)) as Ed.
  { unfold value_decimal, int_max_str_digits.
    rewrite Z.gtb_ltb. destruct (Z.ltb_spec 4300 (ndigits n)); [lia|reflexivity]. }
  pose proof (ETH_UNITS_dexp _ _ Eu) as He.
  rewrite (convert_known_units _ _ _ f f _ Eu Eu Ed).
  destruct (scale_by_units (mkDecimal n 0) f f
              (ETH_UNITS_coef _ _ Eu) (ETH_UNITS_coef _ _ Eu) Hn)
    as [-> ->]; cbn [coef dexp]; unfold Etiny, Emin, Emax, prec; try lia.
  do 2 f_equal. lia.
Qed.

(** C9 (identity, at a value of 29 digits).  [convert(x, u, u)] is to give
    back [x]; for [x = 10^28 + 1] and [u = "wei"] the converter returns
    1.000000000000000000000000000E+28, which is not [x]: the product
    [x * 1] is rounded to the 28 digits of the default context. *)
Theorem convert_identity_rounds_at_29_digits :
  convert_eth_unit (VInt (10 ^ 28 + 1)) "wei" "wei"
    = Ok (mkDecimal (10 ^ 27) 1) /\
  dec_eqb (mkDecimal (10 ^ 27) 1) (mkDecimal (10 ^ 28 + 1) 0) = false.
Proof. split; vm_compute; reflexivity. Qed.

(** *** Decimal strings *)

Lemma int_str_str_int (n : Z) : int_str (str_int n) = Some n.
Proof.
  unfold int_str, str_int.
  rewrite NilZero.isi.
  - cbn [option_map]. rewrite DecimalZ.of_to. reflexivity.
  - destruct n; cbn; [discriminate| |discriminate].
    intros E. injection E as E. exact (DecimalPos.Unsigned.to_uint_nonnil _ E).
  - destruct n; cbn; [discriminate|discriminate|].
    intros E. injection E as E. exact (DecimalPos.Unsigned.to_uint_nonnil _ E).
Qed.

Lemma str_int_inj (n m : Z) : str_int n = str_int m -> n = m.
Proof.
  intros E. apply (f_equal int_str) in E.
  rewrite !int_str_str_int in E. congruence.
Qed.

(** *** The event parser *)

(** C1.  When web3 decodes the log, the record the parser builds carries the
    amount as a string, the decimal numeral of the decoded integer; reading
    the numeral back gives that integer, whatever its size. *)
Theorem parse_keeps_amount_exact `{lib : Web3} (self : EventParser)
    (event_log : LogReceipt) (p : EventData) (w : World) :
  process_log event_log = Ok p ->
  exists d a,
    parse_tokens_locked_event self event_log w = (Ok d, w) /\
    get d "args" = Some a /\
    get a "amount" = Some (JStr (str_int (amount (args p)))) /\
    int_str (str_int (amount (args p))) = Some (amount (args p)).
Proof.
  intros E.
  unfold parse_tokens_locked_event, try_except, bind, lift. rewrite E. cbn.
  eexists _, _. split; [reflexivity|].
  split; [reflexivity|]. split; [reflexivity|]. apply int_str_str_int.
Qed.

Lemma parse_keeps_amount_exact_2_200 :
  exists d a,
    parse_tokens_locked_event (lib := Sample.decoder)
      (mkEventParser BRIDGE_CONTRACT_ABI)
      (Sample.locked_log (2 ^ 200)) (Sample.quiet []) = (Ok d, Sample.quiet []) /\
    get d "args" = Some a /\
    get a "amount" = Some (JStr (str_int (2 ^ 200))) /\
    int_str (str_int (2 ^ 200)) = Some (2 ^ 200).
Proof.
  apply (parse_keeps_amount_exact (lib := Sample.decoder)
           (mkEventParser BRIDGE_CONTRACT_ABI)
           (Sample.locked_log (2 ^ 200))
           (mkEventData
              (mkArgs "0x1111111111111111111111111111111111111111"
                      "0x2222222222222222222222222222222222222222"
                      "0x3333333333333333333333333333333333333333"
                      (2 ^ 200) 137)
              "TokensLocked" 19000000 (Sample.word 0xfeed))
           (Sample.quiet [])).
  vm_compute. reflexivity.
Defined.

(** *** The connector *)

(** C8, as the code has it.  The liveness check comes first: a connector that
    is not connected raises [ConnectionError] whatever the address; a
    connected one raises [ValueError] on a string that is not an address and
    otherwise returns the contract bound to the checksummed address. *)
Theorem get_contract_outcomes `{lib : Web3} (self : BlockchainConnector)
    (address abi : string) (w w' : World) (live : bool) :
  is_connected self w = (Ok live, w') ->
  (live = false ->
     get_contract self address abi w
     = (Raise (ConnectionError "Not connected to the blockchain."),
        logged w' [Log ERROR "Cannot get contract, not connected to the blockchain."]))
  /\ (live = true -> to_checksum_address address = None ->
        exists msg, get_contract self address abi w = (Raise (ValueError msg), w'))
  /\ (live = true -> forall checksum_address,
        to_checksum_address address = Some checksum_address ->
        get_contract self address abi w = (Ok (mkContract checksum_address abi), w')).
Proof.
  intros E. unfold get_contract, bind. rewrite E.
  repeat split.
  - intros ->. reflexivity.
  - intros -> ->. eexists. reflexivity.
  - intros -> c ->. reflexivity.
Qed.

Lemma get_contract_outcomes_on_a_live_node :
  get_contract (lib := Sample.decoder)
    (mkBlockchainConnector "wss://node.example" (Some "wss://node.example"))
    "0X00000000000000000000000000000000000000B1" BRIDGE_CONTRACT_ABI
    (mkWorld [] [true] [] [] [] [])
  = (Ok (mkContract "0x00000000000000000000000000000000000000b1" BRIDGE_CONTRACT_ABI),
     mkWorld [] [] [] [] [] []).
Proof.
  refine (proj2 (proj2 (get_contract_outcomes (lib := Sample.decoder)
            (mkBlockchainConnector "wss://node.example" (Some "wss://node.example"))
            "0X00000000000000000000000000000000000000B1" BRIDGE_CONTRACT_ABI
            (mkWorld [] [true] [] [] [] []) (mkWorld [] [] [] [] [] []) true
            eq_refl)) eq_refl _ _).
  vm_compute. reflexivity.
Defined.

(** C8, as stated, fails: on a connector that was never connected, a string
    that is no address gets [ConnectionError], not [ValueError]. *)
Lemma get_contract_malformed_address_not_connected :
  to_checksum_address (Web3 := Sample.decoder) "xyz" = None /\
  get_contract (lib := Sample.decoder)
    (mkBlockchainConnector "wss://node.example" None) "xyz" BRIDGE_CONTRACT_ABI
    (Sample.quiet [])
  = (Raise (ConnectionError "Not connected to the blockchain."),
     logged (Sample.quiet [])
       [Log ERROR "Cannot get contract, not connected to the blockchain."]) /\
  ~ (exists msg w',
       get_contract (lib := Sample.decoder)
         (mkBlockchainConnector "wss://node.example" None) "xyz"
         BRIDGE_CONTRACT_ABI (Sample.quiet [])
       = (Raise (ValueError msg), w')).
Proof.
  split; [reflexivity|]. split; [reflexivity|].
  intros (msg & w' & E). vm_compute in E. discriminate E.
Qed.

(** *** Start-up *)

(** C7.  With one of the three settings unset, [main] logs the two error
    lines and returns: no provider is opened, nothing is slept, and the
    scripted world is left as it was. *)
Theorem missing_setting_aborts_startup `{lib : Web3} (n : nat)
    (env : gmap string string) (w : World) :
  env !! "SOURCE_CHAIN_WSS_URL" = None \/
  env !! "BRIDGE_CONTRACT_ADDRESS" = None \/
  env !! "DESTINATION_RELAYER_API_URL" = None ->
  main n env w
  = (Ok tt,
     logged w
       [Log ERROR
          "One or more required environment variables are missing. Please check your .env file.";
        Log ERROR
          "Required: SOURCE_CHAIN_WSS_URL, BRIDGE_CONTRACT_ADDRESS, DESTINATION_RELAYER_API_URL"]).
Proof.
  intros Hm. unfold main.
  assert (existsb (fun var => negb (getenv_truthy env var)) required_vars = true)
    as ->.
  { apply existsb_exists. unfold required_vars, getenv_truthy.
    destruct Hm as [E | [E | E]]; eexists; (split; [|rewrite E; reflexivity]);
      cbn; auto. }
  unfold logging, emit, bind, ret, logged. cbn. rewrite <- app_assoc. reflexivity.
Qed.

Lemma missing_setting_aborts_startup_no_relayer_url :
  main (lib := Sample.decoder) 100
    (<[ "SOURCE_CHAIN_WSS_URL" := "wss://node.example" ]>
     (<[ "BRIDGE_CONTRACT_ADDRESS" := "0x00000000000000000000000000000000000000b1" ]> ∅))
    (mkWorld [Connected 1] [true] [] [] [] [])
  = (Ok tt,
     logged (mkWorld [Connected 1] [true] [] [] [] [])
       [Log ERROR
          "One or more required environment variables are missing. Please check your .env file.";
        Log ERROR
          "Required: SOURCE_CHAIN_WSS_URL, BRIDGE_CONTRACT_ADDRESS, DESTINATION_RELAYER_API_URL"]).
Proof.
  apply (missing_setting_aborts_startup (lib := Sample.decoder)).
  right. right. vm_compute. reflexivity.
Defined.

(** *** The delivery client *)

Lemma posts_app (t1 t2 : list action) :
  posts (t1 ++ t2) = (posts t1 + posts t2)%nat.
Proof.
  induction t1 as [|a t1 IH]; [reflexivity|].
  destruct a; cbn; rewrite IH; reflexivity.
Qed.

Lemma sleeps_app (t1 t2 : list action) :
  sleeps (t1 ++ t2) = (sleeps t1 ++ sleeps t2)%list.
Proof.
  induction t1 as [|a t1 IH]; [reflexivity|].
  destruct a; cbn; rewrite IH; reflexivity.
Qed.

Lemma skipn_S_tl {A} (n : nat) (l : list A) : skipn (S n) l = skipn n (tl l).
Proof. destruct l; [destruct n|]; reflexivity. Qed.

Lemma nth_S_tl {A} (n : nat) (l : list A) (d : A) : nth (S n) l d = nth n (tl l) d.
Proof. destruct l; [destruct n|]; reflexivity. Qed.

Lemma nth_0_hd {A} (l : list A) (d : A) : nth 0 l d = hd d l.
Proof. destruct l; reflexivity. Qed.

Lemma after_nil (w : World) : after w [] = w.
Proof. destruct w. unfold after. cbn. rewrite app_nil_r. reflexivity. Qed.

Lemma logged_after (w : World) (t : list action) :
  posts t = O -> logged w t = after w t.
Proof. intros E. unfold logged, after. rewrite E. reflexivity. Qed.

Lemma after_after (w : World) (t1 t2 : list action) :
  after (after w t1) t2 = after w (t1 ++ t2).
Proof.
  unfold after. cbn. rewrite posts_app, app_assoc.
  f_equal. rewrite Nat.add_comm. apply skipn_skipn.
Qed.

Lemma http_exchange_after (url : string) (body : json) (w : World) :
  http_exchange url body w
  = (Ok (hd ConnectFailure (http w)), after w [HttpPost url body]).
Proof.
  unfold http_exchange, after. cbn. destruct (http w); reflexivity.
Qed.

Lemma retry_sleep_after (r : Retry) (w : World) (url : string) (body : json) :
  exists sl, retry_sleep r None w = (Ok tt, after w sl) /\
             posts sl = O /\ sleeps sl = backoff_sleep r /\
             Forall (wire url body) sl /\
             sl = map Sleep (backoff_sleep r).
Proof.
  unfold retry_sleep, backoff_sleep.
  destruct (get_backoff_time r <=? 0).
  - exists []. rewrite after_nil. repeat split. constructor.
  - eexists [Sleep _]. unfold time_sleep, emit, after. cbn. repeat split.
    constructor; [right; eauto|constructor].
Qed.

Lemma wire_post (url : string) (body : json) :
  Forall (wire url body) [HttpPost url body].
Proof. constructor; [left; reflexivity|constructor]. Qed.

Lemma wire_single (url : string) (body : json) (t : list action) :
  Forall (wire url body) t -> posts t = 1%nat -> sleeps t = [] ->
  t = [HttpPost url body].
Proof.
  intros Hw Hp Hs.
  destruct Hw as [|a t [->|(s & ->)] Ht]; [discriminate| |discriminate].
  destruct Ht as [|a t [->|(s & ->)] Ht]; [reflexivity|discriminate|discriminate].
Qed.

Lemma post_is_not_retried (r : Retry) :
  allowed_methods r = DEFAULT_ALLOWED_METHODS ->
  _is_method_retryable r "POST" = false.
Proof. intros E. unfold _is_method_retryable. rewrite E. reflexivity. Qed.

(** A [POST] under a policy with the default [allowed_methods]: the request
    is repeated only after a failure to open the connection, at most
    [total] times, with the backoff waits in between; what comes back is the
    response of the last exchange, whatever its status, or an exception of
    urllib3. *)
Lemma urlopen_post (url : string) (body : json) (depth : nat) :
  forall (r : Retry) (w : World) (res : result http_outcome) (w' : World),
    allowed_methods r = DEFAULT_ALLOWED_METHODS ->
    (1 <= depth)%nat -> total r + 1 < Z.of_nat depth ->
    urlopen depth "POST" url body r w = (res, w') ->
    exists t,
      w' = after w t /\
      (1 <= posts t <= Z.to_nat (total r) + 1)%nat /\
      (forall i, (S i < posts t)%nat ->
                 nth i (http w) ConnectFailure = ConnectFailure) /\
      sleeps t = backoffs r (posts t - 1) /\
      Forall (wire url body) t /\
      t = attempts url body r (posts t) /\
      match res with
      | Ok o => o = nth (posts t - 1) (http w) ConnectFailure /\
                exists s ra js, o = Response s ra js
      | Raise e => exists u, e = Urllib3Error u
      end.
Proof.
  induction depth as [|depth IH]; intros r w res w' Ha Hd Ht E; [lia|].
  cbn [urlopen] in E. unfold bind at 1 in E.
  rewrite http_exchange_after in E.
  pose proof (post_is_not_retried r Ha) as Hp.
  destruct (hd ConnectFailure (http w)) as [s ra js| |] eqn:Eo.
  - unfold is_retry in E. rewrite Hp in E. cbn in E. injection E as <- <-.
    exists [HttpPost url body]. cbn. repeat split; try lia; eauto using wire_post.
    rewrite nth_0_hd. congruence.
  - unfold increment in E. fold (bump r) in E.
    destruct (is_exhausted (bump r)) eqn:Ex.
    + injection E as <- <-.
      exists [HttpPost url body]. cbn. repeat split; try lia; eauto using wire_post.
    + unfold bind in E.
      destruct (retry_sleep_after (bump r) (after w [HttpPost url body]) url body)
        as (sl & Es & Hps & Hss & Hwl & Hsl).
      rewrite Es in E.
      assert (1 <= total r) as Hr.
      { unfold is_exhausted, bump in Ex. cbn in Ex.
        destruct (total r - 1 =? 0) eqn:E0; lia. }
      apply IH in E; [|exact Ha|lia|cbn; lia].
      destruct E as (t & -> & Hn & Hi & Hs & Hwt & Hat & Hres).
      exists ([HttpPost url body] ++ sl ++ t)%list.
      rewrite !after_after.
      rewrite !posts_app, Hps. cbn [posts Nat.add].
      cbn [total bump] in Hn. cbn [http after posts Nat.add] in Hi, Hres.
      rewrite Hps in Hi, Hres.
      replace (skipn 0 (skipn 1 (http w))) with (tl (http w)) in *
        by (destruct (http w); reflexivity).
      repeat split; try lia.
      * intros [|i] Hlt; [rewrite nth_0_hd; exact Eo|].
        rewrite nth_S_tl. apply Hi. lia.
      * rewrite !sleeps_app, Hss, Hs. cbn [sleeps app].
        replace (S (posts t) - 1)%nat with (S (posts t - 1)) by lia.
        reflexivity.
      * apply Forall_app. split; [apply wire_post|].
        apply Forall_app. split; assumption.
      * cbn [attempts app]. destruct (posts t) as [|k] eqn:Ek; [lia|].
        rewrite <- Hsl, <- Hat. reflexivity.
      * destruct res as [o|e]; [|exact Hres].
        destruct Hres as (-> & Hex). split; [|exact Hex].
        replace (S (posts t) - 1)%nat with (S (posts t - 1)) by lia.
        rewrite nth_S_tl. reflexivity.
  - unfold increment in E. rewrite Hp in E.
    rewrite orb_true_r in E. injection E as <- <-.
    exists [HttpPost url body]. cbn. repeat split; try lia; eauto using wire_post.
Qed.

Lemma bind_Ok {A B} (c : M A) (k : A -> M B) (w w' : World) (a : A) :
  c w = (Ok a, w') -> bind c k w = k a w'.
Proof. intros E. unfold bind. rewrite E. reflexivity. Qed.

Lemma bind_Raise {A B} (c : M A) (k : A -> M B) (w w' : World) (e : exn) :
  c w = (Raise e, w') -> bind c k w = (Raise e, w').
Proof. intros E. unfold bind. rewrite E. reflexivity. Qed.

Lemma try_except_Ok {A} (body : M A) (caught : exn -> bool)
    (handler : exn -> M A) (w w' : World) (a : A) :
  body w = (Ok a, w') -> try_except body caught handler w = (Ok a, w').
Proof. intros E. unfold try_except. rewrite E. reflexivity. Qed.

Lemma try_except_caught {A} (body : M A) (caught : exn -> bool)
    (handler : exn -> M A) (w w' : World) (e : exn) (r : result A * World) :
  body w = (Raise e, w') -> caught e = true -> handler e w' = r ->
  try_except body caught handler w = r.
Proof. intros E Ec Eh. unfold try_except. rewrite E, Ec. exact Eh. Qed.

Lemma logging_after (lvl : level) (msg : string) (w : World) :
  logging lvl msg w = (Ok tt, after w [Log lvl msg]).
Proof. reflexivity. Qed.

Lemma time_sleep_after (s : Z) (w : World) :
  time_sleep s w = (Ok tt, after w [Sleep s]).
Proof. reflexivity. Qed.

(** [HTTPAdapter.send] of a [POST]: as [urlopen], with the exception turned
    into one of [requests]. *)
Lemma adapter_send_post (a : HTTPAdapter) (url : string) (body : json)
    (w : World) (res : result http_outcome) (w' : World) :
  allowed_methods (max_retries a) = DEFAULT_ALLOWED_METHODS ->
  adapter_send a "POST" url body w = (res, w') ->
  exists t,
    w' = after w t /\
    (1 <= posts t <= Z.to_nat (total (max_retries a)) + 1)%nat /\
    (forall i, (S i < posts t)%nat ->
               nth i (http w) ConnectFailure = ConnectFailure) /\
    sleeps t = backoffs (max_retries a) (posts t - 1) /\
    Forall (wire url body) t /\
    t = attempts url body (max_retries a) (posts t) /\
    match res with
    | Ok o => o = nth (posts t - 1) (http w) ConnectFailure /\
              exists s ra js, o = Response s ra js
    | Raise e => is_RequestException e = true
    end.
Proof.
  intros Ha E. unfold adapter_send, try_except in E.
  destruct (urlopen _ _ _ _ _ w) as [r0 w0] eqn:Eu.
  apply urlopen_post in Eu; [|exact Ha|lia|lia].
  destruct Eu as (t & -> & Hn & Hi & Hs & Hwt & Hat & Hres).
  exists t.
  destruct r0 as [o|e].
  - injection E as <- <-. intuition auto.
  - destruct Hres as (u & ->).
    assert (exists k, res = Raise (RequestException k) /\ w' = after w t)
      as (k & -> & ->).
    { destruct u as [[|]|]; cbn in E; injection E as <- <-; eauto. }
    intuition auto.
Qed.

Lemma startswith_append (s p : string) :
  startswith s p = true -> exists r, s = String.append p r.
Proof.
  revert s. induction p as [|a p IH]; intros s E.
  - exists s. reflexivity.
  - destruct s as [|b s]; [discriminate|]. cbn [startswith] in E.
    destruct (Ascii.eqb_spec a b) as [->|]; [|discriminate].
    destruct (IH s E) as (r & ->). exists r. reflexivity.
Qed.

Lemma https_is_not_http (s : string) :
  startswith s "https://" = true -> startswith s "http://" = false.
Proof.
  intros E. destruct (startswith_append _ _ E) as (r & ->). reflexivity.
Qed.

Lemma get_adapter_relayer (a : HTTPAdapter) (url : string) :
  get_adapter (mount new_session "https://" a) url
  = if startswith (lower url) "https://" then Some a
    else if startswith (lower url) "http://" then Some default_adapter
    else None.
Proof.
  unfold get_adapter.
  change (mount new_session "https://" a)
    with [("https://", a); ("http://", default_adapter)].
  cbn [List.find fst snd].
  change (lower "https://") with "https://".
  change (lower "http://") with "http://".
  destruct (startswith (lower url) "https://"); [reflexivity|].
  destruct (startswith (lower url) "http://"); reflexivity.
Qed.

Lemma RelayerService_init_Ok (url : string) (self : RelayerService) :
  RelayerService_init url = Ok self ->
  self = mkRelayerService url
           (mount new_session "https://" (mkHTTPAdapter relay_retries)).
Proof.
  unfold RelayerService_init. destruct (String.eqb url ""); [discriminate|].
  intros E. injection E as <-. reflexivity.
Qed.

Lemma backoffs_relay_retries (k : nat) :
  (k <= 5)%nat -> backoffs relay_retries k = firstn (k - 1) [2; 4; 8; 16].
Proof.
  intros Hk.
  do 6 (destruct k as [|k]; [vm_compute; reflexivity|]). lia.
Qed.

(** [session.post] from a relayer service, for any address and any endpoint:
    which requests go out, and what comes back. *)
Lemma session_post_relayer (url : string) (body : json) (w : World)
    (res : result http_outcome) (w' : World) :
  session_post (mount new_session "https://" (mkHTTPAdapter relay_retries))
               url body w = (res, w') ->
  exists t,
    w' = after w t /\
    (posts t <= 6)%nat /\
    (startswith (lower url) "https://" = true -> (1 <= posts t)%nat) /\
    (startswith (lower url) "http://" = true -> posts t = 1%nat) /\
    (forall i, (S i < posts t)%nat ->
               nth i (http w) ConnectFailure = ConnectFailure) /\
    sleeps t = firstn (posts t - 2) [2; 4; 8; 16] /\
    Forall (wire url body) t /\
    (exists n, t = firstn n (schedule url body)) /\
    match res with
    | Ok o => o = nth (posts t - 1) (http w) ConnectFailure /\
              exists s ra js, o = Response s ra js
    | Raise e => is_RequestException e = true
    end.
Proof.
  unfold session_post. rewrite get_adapter_relayer.
  destruct (startswith (lower url) "https://") eqn:Es.
  - intros E. apply adapter_send_post in E; [|reflexivity].
    destruct E as (t & -> & Hn & Hi & Hs & Hwt & Hat & Hres).
    cbn [max_retries] in *. change (total relay_retries) with 5 in Hn.
    exists t. repeat split; try lia; auto.
    + intros Eh. rewrite (https_is_not_http _ Es) in Eh. discriminate.
    + rewrite Hs, backoffs_relay_retries by lia.
      f_equal. lia.
    + rewrite Hat.
      destruct (posts t) as [|[|[|[|[|[|[|k]]]]]]]; [lia| | | | | | |lia].
      * exists 1%nat. reflexivity.
      * exists 2%nat. reflexivity.
      * exists 4%nat. reflexivity.
      * exists 6%nat. reflexivity.
      * exists 8%nat. reflexivity.
      * exists 10%nat. reflexivity.
  - destruct (startswith (lower url) "http://") eqn:Eh.
    + intros E. apply adapter_send_post in E; [|reflexivity].
      destruct E as (t & -> & Hn & Hi & Hs & Hwt & Hat & Hres).
      cbn [max_retries default_adapter total] in Hn.
      assert (posts t = 1%nat) as Hp by lia.
      exists t. repeat split; try lia; auto.
      * rewrite Hs, Hp. reflexivity.
      * exists 1%nat. rewrite Hat, Hp. reflexivity.
    + intros E. injection E as <- <-. exists []. rewrite after_nil. cbn.
      repeat split; try lia; try discriminate; [constructor|].
      exists 0%nat. reflexivity.
Qed.

(** [relay_transaction_data] always returns: every exception that the
    session raises is one of [requests] and is caught.  The requests it puts
    on the wire are those of the session. *)
Lemma relay_outcome (url : string) (self : RelayerService) (event_data : json)
    (w : World) :
  RelayerService_init url = Ok self ->
  exists ok t,
    relay_transaction_data self event_data w
    = (Ok ok,
       after w ([Log INFO "Relaying event data"] ++ t ++ [relay_report ok])%list) /\
    (posts t <= 6)%nat /\
    (startswith (lower url) "https://" = true -> (1 <= posts t)%nat) /\
    (startswith (lower url) "http://" = true -> posts t = 1%nat) /\
    (forall i, (S i < posts t)%nat ->
               nth i (http w) ConnectFailure = ConnectFailure) /\
    sleeps t = firstn (posts t - 2) [2; 4; 8; 16] /\
    Forall (wire url event_data) t /\
    (exists n, t = firstn n (schedule url event_data)) /\
    (ok = true ->
     exists (s : Z) (ra : option Z),
       nth (posts t - 1) (http w) ConnectFailure = Response s ra true /\
       (400 <=? s) && (s <? 600) = false).
Proof.
  intros Hinit. apply RelayerService_init_Ok in Hinit. subst self.
  unfold relay_transaction_data. cbn [api_url session].
  destruct (session_post (mount new_session "https://" (mkHTTPAdapter relay_retries))
              url event_data (after w [Log INFO "Relaying event data"]))
    as [res w1] eqn:E.
  pose proof E as E'. apply session_post_relayer in E'.
  destruct E' as (t & -> & Hn & Hs & Hh & Hi & Hsl & Hwt & Hsch & Hres).
  change (http (after w [Log INFO "Relaying event data"])) with (http w)
    in Hi, Hres.
  assert (forall ok : bool,
    after (after (after w [Log INFO "Relaying event data"]) t) [relay_report ok]
    = after w ([Log INFO "Relaying event data"] ++ t ++ [relay_report ok])%list)
    as Hw.
  { intros ok. rewrite !after_after. reflexivity. }
  destruct res as [o|e].
  - destruct Hres as (Eo & s & ra & js & ->).
    destruct ((400 <=? s) && (s <? 600)) eqn:Est; [|destruct js].
    + exists false, t. rewrite <- Hw.
      repeat split; auto; [|discriminate].
      eapply try_except_caught;
        [ erewrite bind_Ok by apply logging_after;
          erewrite bind_Ok by exact E;
          apply bind_Raise; unfold raise_for_status; rewrite Est; reflexivity
        | reflexivity | reflexivity ].
    + exists true, t. rewrite <- Hw.
      repeat split; auto.
      * apply try_except_Ok.
        erewrite bind_Ok by apply logging_after.
        erewrite bind_Ok by exact E.
        erewrite bind_Ok by (unfold raise_for_status; rewrite Est; reflexivity).
        erewrite bind_Ok by reflexivity.
        erewrite bind_Ok by apply logging_after.
        reflexivity.
      * intros _. exists s, ra. rewrite <- Eo. auto.
    + exists false, t. rewrite <- Hw.
      repeat split; auto; [|discriminate].
      eapply try_except_caught;
        [ erewrite bind_Ok by apply logging_after;
          erewrite bind_Ok by exact E;
          erewrite bind_Ok by (unfold raise_for_status; rewrite Est; reflexivity);
          apply bind_Raise; reflexivity
        | reflexivity | reflexivity ].
  - exists false, t. rewrite <- Hw.
    repeat split; auto; [|discriminate].
    eapply try_except_caught;
      [ erewrite bind_Ok by apply logging_after; apply bind_Raise; exact E
      | exact Hres | reflexivity ].
Qed.

(** C2, as the code has it.  A call of [relay_transaction_data] always
    returns, after at most six requests: the first one and at most five
    repetitions.  A request is repeated only after a transient failure (in
    fact, only after a failure to open the connection).  The first repetition
    follows at once and the next ones wait 2, 4, 8 and 16 seconds: between its
    two log lines the call leaves a beginning of [schedule] in the trace. *)
Theorem relay_retry_policy (url : string) (self : RelayerService)
    (event_data : json) (w : World) :
  RelayerService_init url = Ok self ->
  exists ok t,
    relay_transaction_data self event_data w = (Ok ok, after w t) /\
    (exists n,
       t = ([Log INFO "Relaying event data"]
            ++ firstn n (schedule url event_data) ++ [relay_report ok])%list) /\
    (posts t <= 6)%nat /\
    (forall i, (S i < posts t)%nat ->
               transient (nth i (http w) ConnectFailure) = true) /\
    sleeps t = firstn (posts t - 2) [2; 4; 8; 16].
Proof.
  intros Hinit.
  destruct (relay_outcome url self event_data w Hinit)
    as (ok & t & E & Hn & _ & _ & Hi & Hs & _ & (n & Hsch) & _).
  exists ok, ([Log INFO "Relaying event data"] ++ t ++ [relay_report ok])%list.
  split; [exact E|].
  split; [exists n; rewrite <- Hsch; reflexivity|].
  assert (posts ([Log INFO "Relaying event data"] ++ t ++ [relay_report ok])
          = posts t) as ->.
  { rewrite !posts_app. destruct ok; cbn; lia. }
  assert (sleeps ([Log INFO "Relaying event data"] ++ t ++ [relay_report ok])
          = sleeps t) as ->.
  { rewrite !sleeps_app. destruct ok; cbn; apply app_nil_r. }
  repeat split; auto.
  intros i Hlt. rewrite (Hi i Hlt). reflexivity.
Qed.

Lemma relay_retry_policy_two_refusals :
  exists ok t,
    relay_transaction_data (Sample.relayer_at "https://relayer.example/api")
      (JObject [])
      (Sample.quiet [ConnectFailure; ConnectFailure; Response 200 None true])
    = (Ok ok,
       after (Sample.quiet
                [ConnectFailure; ConnectFailure; Response 200 None true]) t) /\
    (exists n,
       t = ([Log INFO "Relaying event data"]
            ++ firstn n (schedule "https://relayer.example/api" (JObject []))
            ++ [relay_report ok])%list) /\
    (posts t <= 6)%nat /\
    (forall i, (S i < posts t)%nat ->
       transient
         (nth i (http (Sample.quiet
                         [ConnectFailure; ConnectFailure; Response 200 None true]))
              ConnectFailure) = true) /\
    sleeps t = firstn (posts t - 2) [2; 4; 8; 16].
Proof.
  apply (relay_retry_policy "https://relayer.example/api").
  vm_compute. reflexivity.
Defined.

(** C2, as stated, fails: an endpoint that cannot be reached is tried six
    times, not five. *)
Lemma relay_makes_a_sixth_attempt :
  exists w',
    relay_transaction_data (Sample.relayer_at "https://relayer.example/api")
      (JObject [])
      (Sample.quiet [ConnectFailure; ConnectFailure; ConnectFailure;
                     ConnectFailure; ConnectFailure; ConnectFailure])
    = (Ok false, w') /\
    posts (trace w') = 6%nat /\
    sleeps (trace w') = [2; 4; 8; 16] /\
    ~ (posts (trace w') <= 5)%nat.
Proof.
  eexists. split; [vm_compute; reflexivity|].
  cbn. repeat split. lia.
Qed.

(** The gateway statuses do not make a [POST] be repeated: [POST] is not
    among the default [allowed_methods], which [status_forcelist] depends
    on.  An endpoint that answers 503, 503, 200 is asked once. *)
Lemma relay_503_then_200_is_not_retried :
  relay_transaction_data (Sample.relayer_at "https://relayer.example/api")
    (JObject [])
    (Sample.quiet [Response 503 None true; Response 503 None true;
                   Response 200 None true])
  = (Ok false,
     mkWorld [] [] [] [] [Response 503 None true; Response 200 None true]
       [Log INFO "Relaying event data";
        HttpPost "https://relayer.example/api" (JObject []);
        Log ERROR "Failed to relay transaction data"]).
Proof. vm_compute. reflexivity. Qed.

(** C3.  When the endpoint answers with a failure status other than 502, 503
    and 504, one request has gone out, nothing is slept, and the call
    returns [False] at once. *)
Theorem relay_gives_up_on_a_final_status (url : string)
    (self : RelayerService) (event_data : json) (w : World)
    (status_code : Z) (retry_after : option Z) (body_is_json : bool)
    (rest : list http_outcome) :
  RelayerService_init url = Ok self ->
  startswith (lower url) "https://" = true \/
  startswith (lower url) "http://" = true ->
  http w = Response status_code retry_after body_is_json :: rest ->
  400 <= status_code < 600 ->
  ~ In status_code [502; 503; 504] ->
  relay_transaction_data self event_data w
  = (Ok false,
     mkWorld (connects w) (liveness w) (filters w) (entries w) rest
       (trace w ++ [Log INFO "Relaying event data";
                    HttpPost url event_data;
                    Log ERROR "Failed to relay transaction data"])%list).
Proof.
  intros Hinit Hurl Hw Hst _.
  destruct (relay_outcome url self event_data w Hinit)
    as (ok & t & E & Hn & Hs & Hh & Hi & Hsl & Hwt & _ & Hok).
  assert (posts t = 1%nat) as Hp.
  { assert (1 <= posts t)%nat by (destruct Hurl; [auto|rewrite Hh; auto]).
    destruct (posts t) as [|[|n]] eqn:En; [lia|reflexivity|].
    specialize (Hi 0%nat ltac:(lia)). rewrite Hw in Hi. discriminate Hi. }
  rewrite Hp in Hsl, Hok. cbn in Hsl.
  rewrite (wire_single _ _ _ Hwt Hp Hsl) in E.
  destruct ok.
  - destruct (Hok eq_refl) as (s & ra & Es & Er).
    rewrite Hw in Es. cbn in Es. injection Es as <- <- ->.
    exfalso.
    apply andb_false_iff in Er as [Er|Er]; lia.
  - rewrite E. unfold after. cbn. rewrite Hw. reflexivity.
Qed.

Lemma relay_gives_up_on_a_final_status_404 :
  relay_transaction_data (Sample.relayer_at "https://relayer.example/api")
    (JObject []) (Sample.quiet [Response 404 None true; Response 200 None true])
  = (Ok false,
     mkWorld [] [] [] [] [Response 200 None true]
       [Log INFO "Relaying event data";
        HttpPost "https://relayer.example/api" (JObject []);
        Log ERROR "Failed to relay transaction data"]).
Proof.
  apply (relay_gives_up_on_a_final_status "https://relayer.example/api"
           (Sample.relayer_at "https://relayer.example/api") (JObject [])
           (Sample.quiet [Response 404 None true; Response 200 None true])
           404 None true [Response 200 None true]).
  - vm_compute. reflexivity.
  - left. vm_compute. reflexivity.
  - reflexivity.
  - lia.
  - cbn. lia.
Defined.

(** C10.  The adapter with the retry policy is mounted for [https://] only:
    a relayer address with [http://] gets the default adapter, and every
    call puts exactly one request on the wire and sleeps nothing, whatever
    comes back; a 502, 503 or 504 makes the call return [False]. *)
Theorem relay_over_plain_http_is_single_shot (url : string)
    (self : RelayerService) (event_data : json) (w : World) :
  RelayerService_init url = Ok self ->
  startswith (lower url) "http://" = true ->
  get_adapter (session self) url = Some default_adapter /\
  exists ok,
    relay_transaction_data self event_data w
    = (Ok ok,
       after w [Log INFO "Relaying event data"; HttpPost url event_data;
                relay_report ok]) /\
    (forall s ra js,
       hd ConnectFailure (http w) = Response s ra js ->
       In s [502; 503; 504] -> ok = false).
Proof.
  intros Hinit Hurl. split.
  - rewrite (RelayerService_init_Ok _ _ Hinit). cbn [session].
    rewrite get_adapter_relayer, Hurl.
    destruct (startswith (lower url) "https://") eqn:Es; [|reflexivity].
    rewrite (https_is_not_http _ Es) in Hurl. discriminate.
  - destruct (relay_outcome url self event_data w Hinit)
      as (ok & t & E & Hn & Hs & Hh & Hi & Hsl & Hwt & _ & Hok).
    specialize (Hh Hurl). rewrite Hh in Hsl, Hok. cbn in Hsl.
    rewrite (wire_single _ _ _ Hwt Hh Hsl) in E.
    exists ok. split; [exact E|].
    intros s ra js Ehd Hin. destruct ok; [|reflexivity].
    destruct (Hok eq_refl) as (s' & ra' & Es & Er).
    cbn [Nat.sub] in Es. rewrite nth_0_hd, Ehd in Es. injection Es as <- <- ->.
    exfalso. apply andb_false_iff in Er.
    cbn in Hin. destruct Er as [Er|Er]; lia.
Qed.

Lemma relay_over_plain_http_is_single_shot_503 :
  get_adapter (session (Sample.relayer_at "http://relayer.example/api"))
    "http://relayer.example/api" = Some default_adapter /\
  exists ok,
    relay_transaction_data (Sample.relayer_at "http://relayer.example/api")
      (JObject []) (Sample.quiet [Response 503 None true; Response 200 None true])
    = (Ok ok,
       after (Sample.quiet [Response 503 None true; Response 200 None true])
         [Log INFO "Relaying event data";
          HttpPost "http://relayer.example/api" (JObject []);
          relay_report ok]) /\
    (forall s ra js,
       hd ConnectFailure
          (http (Sample.quiet [Response 503 None true; Response 200 None true]))
       = Response s ra js ->
       In s [502; 503; 504] -> ok = false).
Proof.
  apply (relay_over_plain_http_is_single_shot "http://relayer.example/api").
  - vm_compute. reflexivity.
  - vm_compute. reflexivity.
Defined.

(** *** The listener *)

Section Listener.
Context `{lib : Web3}.

Lemma parse_undecodable (self : EventParser) (event_log : LogEntry)
    (e : exn) (w : World) :
  process_log event_log = Raise e ->
  parse_tokens_locked_event self event_log w
  = (Ok (JObject []), after w [Log ERROR "Failed to parse event log"]).
Proof.
  intros E. unfold parse_tokens_locked_event, try_except, bind, lift.
  rewrite E. reflexivity.
Qed.

Lemma parse_decodable (self : EventParser) (event_log : LogEntry)
    (w : World) (p : EventData) :
  process_log event_log = Ok p ->
  exists d, parse_tokens_locked_event self event_log w = (Ok d, w) /\
            truthy d = true.
Proof.
  intros E. unfold parse_tokens_locked_event, try_except, bind, lift.
  rewrite E. eexists. split; reflexivity.
Qed.

(** The handler never raises: an entry is either skipped or handed to the
    relayer, whose outcome is dropped. *)
Lemma _event_handler_returns (self : BridgeEventListener) (url : string)
    (event_log : LogEntry) (w : World) :
  RelayerService_init url = Ok (relayer self) ->
  exists t, _event_handler self event_log w = (Ok tt, after w t).
Proof.
  intros Hinit. unfold _event_handler.
  erewrite bind_Ok by apply logging_after.
  destruct (process_log event_log) as [p|e] eqn:Ep.
  - destruct (parse_decodable (parser self) event_log
                (after w [Log INFO "Received new event log for transaction"])
                p Ep) as (d & Ed & Ht).
    erewrite bind_Ok by exact Ed. rewrite Ht.
    destruct (relay_outcome url (relayer self) d
                (after w [Log INFO "Received new event log for transaction"])
                Hinit) as (ok & t & E & _).
    erewrite bind_Ok by exact E. unfold ret.
    rewrite after_after. eauto.
  - erewrite bind_Ok by (eapply parse_undecodable; exact Ep).
    cbn [truthy]. unfold ret. rewrite after_after. eauto.
Qed.

Lemma for_each_returns (self : BridgeEventListener) (url : string)
    (batch : list LogEntry) :
  RelayerService_init url = Ok (relayer self) ->
  forall w, exists t,
    for_each batch (_event_handler self) w = (Ok tt, after w t).
Proof.
  intros Hinit. induction batch as [|x batch IH]; intros w.
  - exists []. rewrite after_nil. reflexivity.
  - cbn [for_each].
    destruct (_event_handler_returns self url x w Hinit) as (t1 & E1).
    erewrite bind_Ok by exact E1.
    destruct (IH (after w t1)) as (t2 & E2).
    rewrite E2, after_after. eauto.
Qed.

(** The handler on a log that [process_log] refuses: two lines are logged
    and nothing is relayed. *)
Lemma _event_handler_skips (self : BridgeEventListener)
    (event_log : LogEntry) (e : exn) (w : World) :
  process_log event_log = Raise e ->
  _event_handler self event_log w
  = (Ok tt, after w [Log INFO "Received new event log for transaction";
                     Log ERROR "Failed to parse event log"]).
Proof.
  intros E. unfold _event_handler.
  erewrite bind_Ok by apply logging_after.
  erewrite bind_Ok by (eapply parse_undecodable; exact E).
  cbn [truthy]. unfold ret. rewrite after_after. reflexivity.
Qed.

(** The filter raises as soon as one log of the batch does not fit the
    event, wherever it stands in the batch. *)
Lemma format_log_entries_raises (before behind : list LogReceipt)
    (bad : LogReceipt) (e : exn) :
  get_event_data bad = Raise e ->
  exists e', format_log_entries (before ++ bad :: behind) = Raise e'.
Proof.
  intros E. induction before as [|l before (e' & IH)]; cbn [app format_log_entries].
  - rewrite E. eauto.
  - destruct (get_event_data l); [|eauto]. rewrite IH. eauto.
Qed.

(** What the filter hands over is decoded, entry by entry. *)
Lemma format_log_entries_decoded (batch : list LogReceipt)
    (events : list LogEntry) :
  format_log_entries batch = Ok events ->
  exists ps, events = map DecodedLog ps /\ length ps = length batch.
Proof.
  revert events. induction batch as [|l batch IH]; intros events E;
    cbn [format_log_entries] in E.
  - injection E as <-. exists []. auto.
  - destruct (get_event_data l) as [p|]; [|discriminate].
    destruct (format_log_entries batch) as [ps|]; [|discriminate].
    injection E as <-. destruct (IH ps eq_refl) as (ps' & -> & Hl).
    exists (p :: ps'). cbn. auto.
Qed.

Lemma get_new_entries_eq (w : World) :
  get_new_entries w
  = (match hd (Ok []) (entries w) with
     | Ok log_entries => format_log_entries log_entries
     | Raise e => Raise e
     end,
     mkWorld (connects w) (liveness w) (filters w) (tl (entries w)) (http w)
             (trace w)).
Proof.
  unfold get_new_entries, get_filter_changes, bind, lift.
  destruct (hd (Ok []) (entries w)); reflexivity.
Qed.

Lemma is_connected_frame (c : BlockchainConnector) (w w1 : World)
    (live : bool) :
  is_connected c w = (Ok live, w1) ->
  entries w1 = entries w /\ http w1 = http w /\ trace w1 = trace w /\
  connects w1 = connects w.
Proof.
  unfold is_connected, web3_is_connected, ret.
  destruct (web3 c); intros E; injection E as <- <-; auto.
Qed.

End Listener.

(** The [except] clause: the error line, the wait of 30 seconds, and the
    line of the [finally] clause; then [connect()] again. *)
Lemma step_Reconnecting `{lib : Web3} (self : BridgeEventListener) (e : exn)
    (w : World) :
  step self (Reconnecting e) w
  = ((self, Connecting),
     logged w
       [Log ERROR
          "An error occurred in the listening loop. Attempting to reconnect in 30 seconds...";
        Sleep 30;
        Log WARNING "Connection lost or loop interrupted."]).
Proof.
  unfold step, bind, logging, time_sleep, emit, logged. cbn.
  rewrite <- !app_assoc. reflexivity.
Qed.

(** C4, as the code has it.  The filter that [create_filter] returns decodes
    the logs itself, inside [get_new_entries], before the handler and the
    parser with its [try] are reached.  So when the node sends a batch with
    one log that does not fit the event, the turn of the poll loop ends in
    the [except] clause of [start_listening]: not one entry of the batch has
    been handled, not even logged, the batch is gone, and the listener waits
    30 seconds and connects again. *)
Theorem undecodable_entry_aborts_the_poll `{lib : Web3}
    (self : BridgeEventListener) (bad : LogReceipt) (e : exn)
    (before behind : list LogReceipt)
    (rest : list (result (list LogReceipt))) (w w1 : World) :
  is_connected (connector self) w = (Ok true, w1) ->
  entries w = Ok (before ++ bad :: behind)%list :: rest ->
  process_log bad = Raise e ->
  exists e',
    step self Polling w
    = ((self, Reconnecting e'),
       mkWorld (connects w1) (liveness w1) (filters w1) rest (http w1)
               (trace w)) /\
    run 2 self Polling w
    = ([Polling; Reconnecting e'; Connecting],
       (self,
        mkWorld (connects w1) (liveness w1) (filters w1) rest (http w1)
          (trace w ++
           [Log ERROR
              "An error occurred in the listening loop. Attempting to reconnect in 30 seconds...";
            Sleep 30;
            Log WARNING "Connection lost or loop interrupted."])%list)).
Proof.
  intros Hlive Hent Ebad.
  destruct (is_connected_frame _ _ _ _ Hlive) as (He & _ & Ht & _).
  destruct (format_log_entries_raises before behind bad e Ebad) as (e' & Ef).
  exists e'.
  assert (step self Polling w
          = ((self, Reconnecting e'),
             mkWorld (connects w1) (liveness w1) (filters w1) rest (http w1)
                     (trace w))) as Es.
  { unfold step. rewrite Hlive.
    unfold poll, bind. rewrite get_new_entries_eq.
    rewrite He, Hent. cbn [hd tl]. rewrite Ef, Ht. reflexivity. }
  split; [exact Es|].
  cbn [run]. rewrite Es, step_Reconnecting. reflexivity.
Qed.

Lemma undecodable_entry_aborts_the_poll_short_log :
  exists e',
    step (lib := Sample.decoder)
      (Sample.listener_at "https://relayer.example/api" (Some "wss://node.example"))
      Polling
      (mkWorld [] [true] []
         [Ok ([Sample.locked_log 5] ++ Sample.short_log :: [Sample.locked_log 6])%list]
         [Response 200 None true] [])
    = ((Sample.listener_at "https://relayer.example/api" (Some "wss://node.example"),
        Reconnecting e'),
       mkWorld [] [] [] [] [Response 200 None true] []) /\
    run (lib := Sample.decoder) 2
      (Sample.listener_at "https://relayer.example/api" (Some "wss://node.example"))
      Polling
      (mkWorld [] [true] []
         [Ok ([Sample.locked_log 5] ++ Sample.short_log :: [Sample.locked_log 6])%list]
         [Response 200 None true] [])
    = ([Polling; Reconnecting e'; Connecting],
       (Sample.listener_at "https://relayer.example/api" (Some "wss://node.example"),
        mkWorld [] [] [] [] [Response 200 None true]
          ([] ++
           [Log ERROR
              "An error occurred in the listening loop. Attempting to reconnect in 30 seconds...";
            Sleep 30;
            Log WARNING "Connection lost or loop interrupted."])%list)).
Proof.
  apply (undecodable_entry_aborts_the_poll (lib := Sample.decoder)
           (Sample.listener_at "https://relayer.example/api"
              (Some "wss://node.example"))
           Sample.short_log (OtherException "LogTopicError")
           [Sample.locked_log 5] [Sample.locked_log 6] []
           (mkWorld [] [true] []
              [Ok ([Sample.locked_log 5] ++ Sample.short_log :: [Sample.locked_log 6])%list]
              [Response 200 None true] [])
           (mkWorld [] [] []
              [Ok ([Sample.locked_log 5] ++ Sample.short_log :: [Sample.locked_log 6])%list]
              [Response 200 None true] [])).
  - vm_compute. reflexivity.
  - reflexivity.
  - vm_compute. reflexivity.
Defined.

(** C5.  A delivery that fails ends inside [relay_transaction_data]: the call
    returns [False] after its error line, whatever the session raised, and
    the handler drops the value.  So a turn of the poll loop on a live
    connection ends in [Polling] again whenever [get_new_entries] returns,
    whatever becomes of the delivery of what it returned, and leaves for
    [Reconnecting] exactly when [get_new_entries] raises. *)
Theorem delivery_failure_keeps_polling `{lib : Web3}
    (self : BridgeEventListener) (url : string) (w w1 : World) :
  RelayerService_init url = Ok (relayer self) ->
  is_connected (connector self) w = (Ok true, w1) ->
  (forall d w0, exists ok t,
     relay_transaction_data (relayer self) d w0
     = (Ok ok, after w0 (t ++ [relay_report ok]))) /\
  (forall event_log w0, exists t,
     _event_handler self event_log w0 = (Ok tt, after w0 t)) /\
  match get_new_entries w1 with
  | (Ok batch, _) => exists t,
      step self Polling w
      = ((self, Polling),
         mkWorld (connects w1) (liveness w1) (filters w1) (tl (entries w1))
                 (skipn (posts t) (http w1)) (trace w1 ++ t ++ [Sleep 5]))
  | (Raise e, w2) => step self Polling w = ((self, Reconnecting e), w2)
  end.
Proof.
  intros Hinit Hlive.
  split; [|split].
  - intros d w0.
    destruct (relay_outcome url (relayer self) d w0 Hinit) as (ok & t & E & _).
    exists ok, ([Log INFO "Relaying event data"] ++ t)%list.
    rewrite E, <- app_assoc. reflexivity.
  - intros event_log w0. exact (_event_handler_returns self url event_log w0 Hinit).
  - unfold step. rewrite Hlive. unfold poll.
    destruct (get_new_entries w1) as [[batch|e] w2] eqn:Eg;
      [|erewrite bind_Raise by exact Eg; reflexivity].
    assert (w2 = mkWorld (connects w1) (liveness w1) (filters w1)
                   (tl (entries w1)) (http w1) (trace w1)) as ->.
    { rewrite get_new_entries_eq in Eg. injection Eg as _ <-. reflexivity. }
    erewrite bind_Ok by exact Eg. unfold bind.
    match goal with
    | |- context [for_each batch (_event_handler self) ?w2] =>
        destruct (for_each_returns self url batch Hinit w2) as (t & Et);
        rewrite Et; exists t
    end.
    rewrite time_sleep_after, after_after.
    f_equal. unfold after. cbn. rewrite posts_app, Nat.add_0_r. reflexivity.
Qed.

Lemma delivery_failure_keeps_polling_on_a_404 :
  (forall d w0, exists ok t,
     relay_transaction_data
       (relayer (Sample.listener_at "https://relayer.example/api"
                   (Some "wss://node.example"))) d w0
     = (Ok ok, after w0 (t ++ [relay_report ok]))) /\
  (forall event_log w0, exists t,
     _event_handler (lib := Sample.decoder)
       (Sample.listener_at "https://relayer.example/api"
          (Some "wss://node.example")) event_log w0
     = (Ok tt, after w0 t)) /\
  exists t,
    step (lib := Sample.decoder)
      (Sample.listener_at "https://relayer.example/api" (Some "wss://node.example"))
      Polling
      (mkWorld [] [true] [] [Ok [Sample.locked_log 5]] [Response 404 None true] [])
    = ((Sample.listener_at "https://relayer.example/api" (Some "wss://node.example"),
        Polling),
       mkWorld [] [] [] [] (skipn (posts t) [Response 404 None true])
               ([] ++ t ++ [Sleep 5])).
Proof.
  apply (delivery_failure_keeps_polling (lib := Sample.decoder)
           (Sample.listener_at "https://relayer.example/api"
              (Some "wss://node.example"))
           "https://relayer.example/api"
           (mkWorld [] [true] [] [Ok [Sample.locked_log 5]]
                    [Response 404 None true] [])
           (mkWorld [] [] [] [Ok [Sample.locked_log 5]]
                    [Response 404 None true] [])).
  - vm_compute. reflexivity.
  - vm_compute. reflexivity.
Defined.

(** A [connect()] that fails, and the cool-down that follows it. *)
Lemma fail_and_cool_down `{lib : Web3} (self : BridgeEventListener) (w : World)
    (a : conn_attempt) (cs : list conn_attempt) :
  connects w = a :: cs -> is_failure a = true ->
  exists e self1 w1 w2,
    step self Connecting w = ((self1, Reconnecting e), w1) /\
    step self1 (Reconnecting e) w1 = ((self1, Connecting), w2) /\
    connects w2 = cs /\
    sleeps (trace w2) = (sleeps (trace w) ++ [30])%list.
Proof.
  intros Hc Ha.
  destruct a as [e| |e|id]; [| | |discriminate Ha];
    (do 4 eexists; split;
     [unfold step, connect, bind, open_provider, logging, emit, ret;
      rewrite Hc; cbn; reflexivity|];
     split; [apply step_Reconnecting|];
     split; [reflexivity|];
     cbn; rewrite !sleeps_app; cbn; rewrite !app_nil_r; reflexivity).
Qed.

Lemma connect_and_subscribe `{lib : Web3} (self : BridgeEventListener)
    (w : World) (id : Z) (cs : list conn_attempt) :
  connects w = Connected id :: cs ->
  exists self1 w1,
    step self Connecting w = ((self1, Subscribing), w1) /\
    connects w1 = cs /\ sleeps (trace w1) = sleeps (trace w).
Proof.
  intros Hc. do 2 eexists. split.
  - unfold step, connect, bind, open_provider, logging, emit, ret.
    rewrite Hc. cbn. reflexivity.
  - split; [reflexivity|].
    cbn. rewrite !sleeps_app. cbn. rewrite !app_nil_r. reflexivity.
Qed.

(** C6, as the code has it.  When [connect()] fails three times and then
    succeeds, the listener goes from [Connecting] to [Reconnecting] three
    times, once for each failure, before it reaches [Subscribing]; every
    stay in [Reconnecting] sleeps 30 seconds and leads back to
    [Connecting]. *)
Theorem three_failed_connects `{lib : Web3} (self : BridgeEventListener)
    (w : World) (a1 a2 a3 : conn_attempt) (id : Z) (rest : list conn_attempt) :
  connects w = a1 :: a2 :: a3 :: Connected id :: rest ->
  is_failure a1 = true -> is_failure a2 = true -> is_failure a3 = true ->
  exists e1 e2 e3 self' w',
    run 7 self Connecting w
    = ([Connecting; Reconnecting e1; Connecting; Reconnecting e2;
        Connecting; Reconnecting e3; Connecting; Subscribing], (self', w')) /\
    transitions is_Connecting is_Reconnecting
      [Connecting; Reconnecting e1; Connecting; Reconnecting e2;
       Connecting; Reconnecting e3; Connecting; Subscribing] = 3%nat /\
    sleeps (trace w') = (sleeps (trace w) ++ [30; 30; 30])%list /\
    connects w' = rest.
Proof.
  intros Hc H1 H2 H3.
  destruct (fail_and_cool_down self w a1 _ Hc H1)
    as (e1 & s1 & w1 & w1' & Ea1 & Eb1 & Hc1 & Hs1).
  destruct (fail_and_cool_down s1 w1' a2 _ Hc1 H2)
    as (e2 & s2 & w2 & w2' & Ea2 & Eb2 & Hc2 & Hs2).
  destruct (fail_and_cool_down s2 w2' a3 _ Hc2 H3)
    as (e3 & s3 & w3 & w3' & Ea3 & Eb3 & Hc3 & Hs3).
  destruct (connect_and_subscribe s3 w3' id _ Hc3) as (s4 & w4 & E4 & Hc4 & Hs4).
  exists e1, e2, e3, s4, w4.
  split.
  - cbn [run]. rewrite Ea1, Eb1, Ea2, Eb2, Ea3, Eb3, E4. reflexivity.
  - split; [reflexivity|]. split; [|exact Hc4].
    rewrite Hs4, Hs3, Hs2, Hs1, <- !app_assoc. reflexivity.
Qed.

Lemma three_failed_connects_on_a_dead_node :
  exists e1 e2 e3 self' w',
    run (lib := Sample.decoder) 7
      (Sample.listener_at "https://relayer.example/api" None) Connecting
      (mkWorld [NotConnected; ProviderRaises (OtherException "OSError");
                ChainIdRaises (OtherException "TimeoutError"); Connected 1]
               [] [] [] [] [])
    = ([Connecting; Reconnecting e1; Connecting; Reconnecting e2;
        Connecting; Reconnecting e3; Connecting; Subscribing], (self', w')) /\
    transitions is_Connecting is_Reconnecting
      [Connecting; Reconnecting e1; Connecting; Reconnecting e2;
       Connecting; Reconnecting e3; Connecting; Subscribing] = 3%nat /\
    sleeps (trace w')
    = (sleeps (trace (mkWorld
                 [NotConnected; ProviderRaises (OtherException "OSError");
                  ChainIdRaises (OtherException "TimeoutError"); Connected 1]
                 [] [] [] [] [])) ++ [30; 30; 30])%list /\
    connects w' = [].
Proof.
  apply (three_failed_connects (lib := Sample.decoder)
           (Sample.listener_at "https://relayer.example/api" None)
           (mkWorld [NotConnected; ProviderRaises (OtherException "OSError");
                     ChainIdRaises (OtherException "TimeoutError"); Connected 1]
                    [] [] [] [] [])
           NotConnected (ProviderRaises (OtherException "OSError"))
           (ChainIdRaises (OtherException "TimeoutError")) 1 []);
    reflexivity.
Defined.

(** C6, as stated, fails: after three failures the move from [Connecting]
    to [Reconnecting] has been made three times, not twice, when
    [Subscribing] is reached, and [Subscribing] is not reached earlier. *)
Lemma three_failures_are_three_reconnections :
  exists phs final,
    run (lib := Sample.decoder) 7
      (Sample.listener_at "https://relayer.example/api" None) Connecting
      (mkWorld [NotConnected; NotConnected; NotConnected; Connected 1]
               [] [] [] [] [])
    = (phs ++ [Subscribing], final)%list /\
    existsb is_Subscribing phs = false /\
    transitions is_Connecting is_Reconnecting (phs ++ [Subscribing]) = 3%nat /\
    transitions is_Connecting is_Reconnecting (phs ++ [Subscribing]) <> 2%nat.
Proof.
  eexists [Connecting; Reconnecting _; Connecting; Reconnecting _;
           Connecting; Reconnecting _; Connecting], _.
  split; [vm_compute; reflexivity|].
  split; [reflexivity|]. split; [reflexivity|]. cbn. lia.
Qed.

(** The handler on a raw log of the event, with amount 10^18 for chain 137,
    and an endpoint that answers 200: one request goes out, with the amount
    as a string and the chain identifier as a number.  (The poll loop never
    gives the handler a raw log: its filter has decoded the log before.) *)
Example one_ether_locked_is_relayed :
  _event_handler (lib := Sample.decoder)
    (Sample.listener_at "https://relayer.example/api" (Some "wss://node.example"))
    (Sample.locked_log (10 ^ 18)) (Sample.quiet [Response 200 None true])
  = (Ok tt,
     mkWorld [] [] [] [] []
       [Log INFO "Received new event log for transaction";
        Log INFO "Relaying event data";
        HttpPost "https://relayer.example/api"
          (JObject
             [("transactionHash",
               JStr "0x000000000000000000000000000000000000000000000000000000000000feed");
              ("blockNumber", JInt 19000000);
              ("event", JStr "TokensLocked");
              ("args",
               JObject
                 [("token", JStr "0x1111111111111111111111111111111111111111");
                  ("sender", JStr "0x2222222222222222222222222222222222222222");
                  ("recipient", JStr "0x3333333333333333333333333333333333333333");
                  ("amount", JStr "1000000000000000000");
                  ("destinationChainId", JInt 137)])]);
        Log INFO "Successfully relayed transaction"]).
Proof. vm_compute. reflexivity. Qed.

(** ** Further properties of the unit converter *)

Lemma lower_ascii_idem (c : ascii) : lower_ascii (lower_ascii c) = lower_ascii c.
Proof.
  destruct c as [[] [] [] [] [] [] [] []]; vm_compute; reflexivity.
Qed.

Lemma lower_idem (s : string) : lower (lower s) = lower s.
Proof.
  induction s as [|c s IH]; [reflexivity|].
  cbn [lower]. rewrite lower_ascii_idem, IH. reflexivity.
Qed.

(** Unit names are matched without regard to case: a call means the same as
    the call with both names in lower case. *)
Theorem convert_ignores_case (value : Value) (from_unit to_unit : string) :
  convert_eth_unit value from_unit to_unit
  = convert_eth_unit value (lower from_unit) (lower to_unit).
Proof. unfold convert_eth_unit. rewrite !lower_idem. reflexivity. Qed.

Lemma ETH_UNITS_names (u : string) :
  is_Some (ETH_UNITS !! u) <->
  In u ["wei"; "kwei"; "mwei"; "gwei"; "szabo"; "finney"; "ether"].
Proof.
  split.
  - intros [f E]. unfold ETH_UNITS in E. apply elem_of_list_to_map_2 in E.
    repeat (apply elem_of_cons in E as [E|E];
            [injection E as -> _; cbn; tauto|]).
    apply elem_of_nil in E. destruct E.
  - cbn. intros H.
    repeat (destruct H as [<-|H]; [eexists; vm_compute; reflexivity|]).
    destruct H.
Qed.

(** An ASCII name that is none of the seven units, in whatever case, makes
    the call raise [ValueError], before the value is looked at; [from_unit]
    comes first, so when both names are wrong the message is about
    [from_unit]. *)
Theorem convert_rejects_unknown_units (value : Value)
    (from_unit to_unit : string) :
  isascii from_unit = true -> isascii to_unit = true ->
  (~ In (lower from_unit)
        ["wei"; "kwei"; "mwei"; "gwei"; "szabo"; "finney"; "ether"] ->
   convert_eth_unit value from_unit to_unit
   = Raise (ValueError "Invalid 'from_unit'")) /\
  (In (lower from_unit)
      ["wei"; "kwei"; "mwei"; "gwei"; "szabo"; "finney"; "ether"] ->
   ~ In (lower to_unit)
        ["wei"; "kwei"; "mwei"; "gwei"; "szabo"; "finney"; "ether"] ->
   convert_eth_unit value from_unit to_unit
   = Raise (ValueError "Invalid 'to_unit'")).
Proof.
  intros _ _. unfold convert_eth_unit. split.
  - intros Hf. destruct (ETH_UNITS !! lower from_unit) as [f|] eqn:E;
      [|reflexivity].
    exfalso. apply Hf, ETH_UNITS_names. eauto.
  - intros Hf Ht. apply ETH_UNITS_names in Hf as [f ->].
    destruct (ETH_UNITS !! lower to_unit) as [f'|] eqn:E; [|reflexivity].
    exfalso. apply Ht, ETH_UNITS_names. eauto.
Qed.

Lemma convert_rejects_unknown_units_gwex :
  convert_eth_unit (VInt 1) "Ether" "gwex" = Raise (ValueError "Invalid 'to_unit'").
Proof.
  apply (proj2 (convert_rejects_unknown_units (VInt 1) "Ether" "gwex"
                  eq_refl eq_refl)).
  - vm_compute. tauto.
  - vm_compute. intros H. repeat (destruct H as [H|H]; [discriminate H|]).
    exact H.
Defined.

(** *** The number of digits *)

Lemma nb_digits_to_lu (n : N) :
  Decimal.nb_digits (N.to_uint n)
  = Decimal.nb_digits (DecimalPos.Unsigned.to_lu n).
Proof.
  destruct n as [|p]; [reflexivity|].
  cbn [N.to_uint DecimalPos.Unsigned.to_lu]. unfold Pos.to_uint.
  apply DecimalFacts.nb_digits_rev.
Qed.

Lemma nb_digits_tenfold (p : positive) (k : N) :
  (k < 10)%N ->
  Decimal.nb_digits (DecimalPos.Unsigned.to_lu (10 * N.pos p + k))
  = S (Decimal.nb_digits (DecimalPos.Unsigned.to_lu (N.pos p))).
Proof.
  intros Hk.
  assert (exists j, (j < 10)%nat /\
            (10 * N.pos p + k)%N = Nat.iter j N.succ (10 * N.pos p)%N)
    as (j & Hj & ->).
  { exists (N.to_nat k). split; [lia|].
    rewrite N.add_comm. apply DecimalPos.Unsigned.Nadd_alt. }
  do 10 (destruct j as [|j];
         [cbn [Nat.iter nat_rect];
          rewrite ?DecimalPos.Unsigned.to_lu_succ,
                  DecimalPos.Unsigned.to_ldec_tenfold;
          reflexivity|]).
  lia.
Qed.

(** A numeral of [k] digits stands for a number from [10 ^ (k - 1)] up to
    [10 ^ k], the latter excluded. *)
Lemma nb_digits_bounds (n : N) :
  (0 < n)%N ->
  10 ^ (Z.of_nat (Decimal.nb_digits (N.to_uint n)) - 1) <= Z.of_N n
  < 10 ^ Z.of_nat (Decimal.nb_digits (N.to_uint n)).
Proof.
  induction n as [n IH] using (well_founded_induction N.lt_wf_0). intros Hn.
  destruct (N.lt_ge_cases n 10) as [Hlt|Hge].
  - assert (exists j, (j < 10)%nat /\ n = N.of_nat j) as (j & Hj & ->)
      by (exists (N.to_nat n); lia).
    do 10 (destruct j as [|j];
           [first [lia|vm_compute; split; [discriminate|reflexivity]]|]).
    lia.
  - pose proof (N.div_mod' n 10) as E.
    pose proof (N.mod_lt n 10 ltac:(discriminate)) as Hk.
    set (k := (n mod 10)%N) in *. clearbody k.
    destruct (n / 10)%N as [|p] eqn:Eq; [lia|].
    specialize (IH (N.pos p) ltac:(lia) ltac:(lia)).
    rewrite nb_digits_to_lu, E, nb_digits_tenfold by exact Hk.
    rewrite nb_digits_to_lu in IH.
    set (m := Decimal.nb_digits (DecimalPos.Unsigned.to_lu (N.pos p))) in *.
    rewrite N2Z.inj_add, N2Z.inj_mul.
    replace (Z.of_nat (S m) - 1) with (Z.of_nat m) by lia.
    replace (Z.of_nat (S m)) with (Z.succ (Z.of_nat m)) by lia.
    rewrite Z.pow_succ_r by lia.
    assert (0 <= Z.of_N k < 10) as Hk' by lia.
    change (Z.of_N 10) with 10.
    destruct m as [|m].
    + change (Z.of_nat 0) with 0 in *. change (10 ^ 0) with 1 in *. lia.
    + replace (Z.of_nat (S m) - 1) with (Z.of_nat m) in IH by lia.
      replace (Z.of_nat (S m)) with (Z.succ (Z.of_nat m)) in * by lia.
      rewrite Z.pow_succ_r in * by lia. lia.
Qed.

Lemma ndigits_bounds (c : Z) :
  c <> 0 -> 10 ^ (ndigits c - 1) <= Z.abs c < 10 ^ ndigits c.
Proof.
  intros Hc. unfold ndigits. rewrite <- (N2Z.inj_abs_N c).
  apply nb_digits_bounds. lia.
Qed.

Lemma ndigits_le (c j : Z) : 1 <= j -> Z.abs c < 10 ^ j -> ndigits c <= j.
Proof.
  intros Hj Hc. destruct (Z.eq_dec c 0) as [->|Hnz]; [exact Hj|].
  pose proof (ndigits_bounds c Hnz) as [Hlo _].
  pose proof (ndigits_pos c).
  assert (10 ^ (ndigits c - 1) < 10 ^ j) as Hp by lia.
  apply Z.pow_lt_mono_r_iff in Hp; lia.
Qed.

Lemma ndigits_ge (c j : Z) : 10 ^ (j - 1) <= Z.abs c -> c <> 0 -> j <= ndigits c.
Proof.
  intros Hc Hnz.
  pose proof (ndigits_bounds c Hnz) as [_ Hhi].
  pose proof (ndigits_pos c).
  destruct (Z.le_gt_cases j 1) as [|Hj]; [lia|].
  assert (10 ^ (j - 1) < 10 ^ ndigits c) as Hp by lia.
  apply Z.pow_lt_mono_r_iff in Hp; lia.
Qed.

Lemma ndigits_sgn_mul (c x : Z) : c <> 0 -> ndigits (Z.sgn c * x) = ndigits x.
Proof.
  intros Hc. rewrite <- (ndigits_abs (Z.sgn c * x)), <- (ndigits_abs x).
  f_equal. rewrite Z.abs_mul. destruct c; cbn; lia.
Qed.

(** A number of at most 28 digits whose leading digit is not above [Emax]
    does not overflow: it is left as it is, or rounded at [Etiny]. *)
Lemma _fix_returns_28 (c e : Z) :
  ndigits c <= 28 -> ndigits c + e <= Emax + 1 ->
  exists m, _fix (mkDecimal c e) = Ok m.
Proof.
  intros Hn Hhi. unfold _fix. cbn [coef dexp].
  destruct (c =? 0); [eauto|].
  unfold Etop, Etiny, Emin, Emax, prec in *.
  rewrite Z.gtb_ltb.
  destruct (Z.ltb_spec (999999 - 28 + 1) (ndigits c + e - 28)); [lia|].
  destruct (Z.ltb_spec e (Z.max (ndigits c + e - 28) (-999999 - 28 + 1)));
    [|eauto].
  match goal with
  | |- context [if ?b then _ + 1 else _] => destruct b
  end; rewrite Z.gtb_ltb;
    match goal with
    | |- context [if ?x <? ?y then _ else _] =>
        destruct (Z.ltb_spec x y); [lia|eauto]
    end.
Qed.

(** A number whose leading digit is below [Emax] does not overflow either:
    it is rounded to at most 28 digits, and its leading digit moves up by one
    place at most. *)
Lemma _fix_returns (c e : Z) :
  c <> 0 -> ndigits c + e <= Emax ->
  exists m, _fix (mkDecimal c e) = Ok m /\
            ndigits (coef m) <= 28 /\
            (coef m <> 0 -> ndigits (coef m) + dexp m <= ndigits c + e + 1).
Proof.
  intros Hc Hhi. unfold _fix. cbn [coef dexp].
  destruct (Z.eqb_spec c 0) as [|_]; [contradiction|].
  pose proof (ndigits_bounds c Hc) as [Hlo Hup].
  pose proof (ndigits_pos c) as Hpos.
  set (n := ndigits c) in *.
  unfold Etop, Etiny, Emin, Emax, prec in *.
  rewrite Z.gtb_ltb.
  destruct (Z.ltb_spec (999999 - 28 + 1) (n + e - 28)); [lia|].
  set (exp_min := Z.max (n + e - 28) (-999999 - 28 + 1)).
  assert (n + e - 28 <= exp_min /\ -1000026 <= exp_min /\ exp_min <= 999972)
    as (Hm1 & Hm2 & Hm3) by (unfold exp_min; lia).
  destruct (Z.ltb_spec e exp_min) as [Hr|Hr].
  2:{ eexists. split; [reflexivity|]. cbn [coef dexp]. fold n. lia. }
  destruct (Z.ltb_spec (n + e - exp_min) 0) as [Hd|Hd].
  - change (1 / 10 ^ 1) with 0. change (1 mod 10 ^ 1) with 1.
    change ((2 * 1 >? 10 ^ 1) || (2 * 1 =? 10 ^ 1) && Z.odd 0) with false.
    cbn [andb].
    rewrite Z.gtb_ltb. destruct (Z.ltb_spec (999999 - 28 + 1) exp_min); [lia|].
    eexists. split; [reflexivity|]. cbn [coef dexp].
    rewrite Z.mul_0_r. split; [vm_compute; discriminate|]. intros F. contradiction.
  - set (k := exp_min - e). set (q := Z.abs c / 10 ^ k).
    set (r := Z.abs c mod 10 ^ k).
    set (changed := (2 * r >? 10 ^ k) || ((2 * r =? 10 ^ k) && Z.odd q)).
    set (digits := n + e - exp_min) in *.
    assert (0 <= digits <= 28) as Hdig by (unfold digits; lia).
    assert (0 < 10 ^ k) as Hk by (apply Z.pow_pos_nonneg; unfold k; lia).
    assert (0 <= q < 10 ^ digits) as Hq.
    { unfold q. split; [apply Z.div_pos; lia|].
      apply Z.div_lt_upper_bound; [exact Hk|].
      rewrite <- Z.pow_add_r by (unfold k; lia).
      replace (k + digits) with n by (unfold k, digits; lia). exact Hup. }
    assert (10 ^ digits <= 10 ^ 28) as Hp28
      by (apply Z.pow_le_mono_r; lia).
    destruct (changed && (ndigits (q + 1) >? 28)) eqn:Ecar.
    + apply andb_true_iff in Ecar as [Ech Ecar].
      rewrite Z.gtb_ltb in Ecar. apply Z.ltb_lt in Ecar.
      assert (10 ^ 28 <= q + 1) as Hq1.
      { pose proof (ndigits_bounds (q + 1) ltac:(lia)) as [Hl _].
        rewrite Z.abs_eq in Hl by lia.
        assert (10 ^ 28 <= 10 ^ (ndigits (q + 1) - 1))
          by (apply Z.pow_le_mono_r; lia).
        lia. }
      assert (q + 1 = 10 ^ 28) as -> by lia.
      assert (digits = 28) as Hd28.
      { destruct (Z.eq_dec digits 28) as [|Hne]; [assumption|].
        assert (10 ^ digits < 10 ^ 28)
          by (apply Z.pow_lt_mono_r; lia).
        lia. }
      rewrite Z.gtb_ltb. destruct (Z.ltb_spec (999999 - 28 + 1) (exp_min + 1)).
      { unfold digits in Hd28. lia. }
      eexists. split; [reflexivity|]. cbn [coef dexp].
      rewrite ndigits_sgn_mul by exact Hc.
      change (ndigits (10 ^ 28 / 10)) with 28.
      unfold digits in Hd28. lia.
    + rewrite Z.gtb_ltb. destruct (Z.ltb_spec (999999 - 28 + 1) exp_min); [lia|].
      eexists. split; [reflexivity|]. cbn [coef dexp].
      rewrite ndigits_sgn_mul by exact Hc.
      destruct changed.
      * cbn [andb] in Ecar. rewrite Z.gtb_ltb in Ecar.
        apply Z.ltb_ge in Ecar. split; [exact Ecar|]. intros _.
        assert (ndigits (q + 1) <= digits + 1).
        { apply ndigits_le; [lia|]. rewrite Z.abs_eq by lia.
          replace (digits + 1) with (Z.succ digits) by lia.
          rewrite Z.pow_succ_r by lia. lia. }
        unfold digits in *. lia.
      * assert (ndigits q <= Z.max digits 1).
        { apply ndigits_le; [lia|]. rewrite Z.abs_eq by lia.
          assert (10 ^ digits <= 10 ^ Z.max digits 1)
            by (apply Z.pow_le_mono_r; lia).
          lia. }
        split; [lia|]. intros Hq0.
        assert (q <> 0) as Hqz by (intros ->; apply Hq0; apply Z.mul_0_r).
        assert (1 <= digits).
        { destruct (Z.eq_dec digits 0) as [E0|]; [|lia].
          rewrite E0 in Hq. change (10 ^ 0) with 1 in Hq. lia. }
        unfold digits in *. lia.
Qed.

(** With two known units the call returns a [Decimal] for every value in
    range: an [int] that [str] accepts (at most 4300 digits), or a [Decimal]
    whose leading digit stands at least 19 places below [Emax].  No factor
    is zero, and a result too small for the context is rounded, to zero if
    need be, and not refused. *)
Theorem convert_returns_for_known_units (value : Value)
    (from_unit to_unit : string) :
  In (lower from_unit)
     ["wei"; "kwei"; "mwei"; "gwei"; "szabo"; "finney"; "ether"] ->
  In (lower to_unit)
     ["wei"; "kwei"; "mwei"; "gwei"; "szabo"; "finney"; "ether"] ->
  match value with
  | VInt n => ndigits n <= int_max_str_digits
  | VDecimal d => ndigits (coef d) + dexp d <= Emax - 18
  end ->
  exists d, convert_eth_unit value from_unit to_unit = Ok d.
Proof.
  intros Hf Ht Hv.
  apply ETH_UNITS_names in Hf as [f Ef].
  apply ETH_UNITS_names in Ht as [g Eg].
  pose proof (ETH_UNITS_dexp _ _ Ef) as Hef.
  pose proof (ETH_UNITS_dexp _ _ Eg) as Heg.
  pose proof (ETH_UNITS_coef _ _ Ef) as Hcf.
  pose proof (ETH_UNITS_coef _ _ Eg) as Hcg.
  assert (exists d, value_decimal value = Ok d /\
                    ndigits (coef d) + dexp d <= Emax - 18) as (d & Ed & Hd).
  { destruct value as [n|d]; cbn [value_decimal].
    - unfold int_max_str_digits in *. rewrite Z.gtb_ltb.
      destruct (Z.ltb_spec 4300 (ndigits n)); [lia|].
      eexists. split; [reflexivity|]. cbn [coef dexp]. unfold Emax. lia.
    - eauto. }
  rewrite (convert_known_units _ _ _ f g d Ef Eg Ed).
  destruct f as [cf ef], g as [cg eg], d as [c e].
  cbn [coef dexp] in *. subst cf cg.
  unfold mul. cbn [coef dexp]. rewrite Z.mul_1_r.
  destruct (Z.eq_dec c 0) as [->|Hc].
  - cbn. unfold _fix. cbn. eauto.
  - destruct (_fix_returns c (e + ef) Hc ltac:(unfold Emax in *; lia))
      as ([cm em] & -> & Hn & Htop).
    cbn [coef dexp] in *.
    destruct (Z.eq_dec cm 0) as [->|Hm].
    + rewrite truediv_zero_by_unit. unfold _fix. cbn. eauto.
    + rewrite truediv_by_unit by lia.
      apply _fix_returns_28; [exact Hn|].
      specialize (Htop Hm). unfold Emax in *. lia.
Qed.

Lemma convert_returns_for_known_units_2_200 :
  exists d, convert_eth_unit (VInt (2 ^ 200)) "WEI" "ether" = Ok d.
Proof.
  apply convert_returns_for_known_units.
  - vm_compute. tauto.
  - vm_compute. tauto.
  - vm_compute. discriminate.
Defined.

(** A value of at most 28 digits whose exponent is well within the range of
    the context (18 places above [Etiny], 45 below [Emax]) is converted
    exactly: the digits stay and the exponent moves by the difference of the
    two units' exponents. *)
Theorem convert_is_exact_up_to_28_digits (value : Value)
    (from_unit to_unit : string) (f g d : Decimal) :
  ETH_UNITS !! lower from_unit = Some f ->
  ETH_UNITS !! lower to_unit = Some g ->
  value_decimal value = Ok d ->
  ndigits (coef d) <= 28 ->
  Etiny + 18 <= dexp d -> dexp d <= Emax - 45 ->
  convert_eth_unit value from_unit to_unit
  = Ok (mkDecimal (coef d) (dexp d + dexp f - dexp g)).
Proof.
  intros Ef Eg Ed Hn Hlo Hhi.
  pose proof (ETH_UNITS_dexp _ _ Ef) as Hef.
  pose proof (ETH_UNITS_dexp _ _ Eg) as Heg.
  rewrite (convert_known_units _ _ _ f g d Ef Eg Ed).
  destruct (scale_by_units d f g (ETH_UNITS_coef _ _ Ef) (ETH_UNITS_coef _ _ Eg) Hn)
    as [-> ->]; unfold Etiny, Emin, Emax, prec in *; try lia.
  reflexivity.
Qed.

Lemma convert_is_exact_up_to_28_digits_gwei :
  convert_eth_unit (VInt 12345) "gwei" "ether"
  = Ok (mkDecimal 12345 (0 + 9 - 18)).
Proof.
  apply (convert_is_exact_up_to_28_digits (VInt 12345) "gwei" "ether"
           (mkDecimal 1 9) (mkDecimal 1 18) (mkDecimal 12345 0)).
  - vm_compute. reflexivity.
  - vm_compute. reflexivity.
  - vm_compute. reflexivity.
  - vm_compute. discriminate.
  - vm_compute. discriminate.
  - vm_compute. discriminate.
Defined.

(** Converting there and back gives the value again, digit for digit, when
    it has at most 28 digits and its exponent is well within the range of
    the context (36 places above [Etiny], 63 below [Emax]). *)
Theorem convert_there_and_back (value : Value) (from_unit to_unit : string)
    (f g d r : Decimal) :
  ETH_UNITS !! lower from_unit = Some f ->
  ETH_UNITS !! lower to_unit = Some g ->
  value_decimal value = Ok d ->
  ndigits (coef d) <= 28 ->
  Etiny + 36 <= dexp d -> dexp d <= Emax - 63 ->
  convert_eth_unit value from_unit to_unit = Ok r ->
  convert_eth_unit (VDecimal r) to_unit from_unit = Ok d.
Proof.
  intros Ef Eg Ed Hn Hlo Hhi E.
  pose proof (ETH_UNITS_coef _ _ Ef) as Hf.
  pose proof (ETH_UNITS_coef _ _ Eg) as Hg.
  pose proof (ETH_UNITS_dexp _ _ Ef) as Hef.
  pose proof (ETH_UNITS_dexp _ _ Eg) as Heg.
  rewrite (convert_known_units _ _ _ f g d Ef Eg Ed) in E.
  destruct (scale_by_units d f g Hf Hg Hn) as [Em Et];
    try (unfold Etiny, Emin, Emax, prec in *; lia).
  rewrite Em, Et in E. injection E as <-.
  rewrite (convert_known_units (VDecimal _) _ _ g f _ Eg Ef eq_refl).
  destruct (scale_by_units (mkDecimal (coef d) (dexp d + dexp f - dexp g)) g f
              Hg Hf Hn) as [-> ->];
    cbn [coef dexp]; try (unfold Etiny, Emin, Emax, prec in *; lia).
  destruct d as [c e0]. cbn [coef dexp]. do 2 f_equal. lia.
Qed.

Lemma convert_there_and_back_ether :
  convert_eth_unit (VDecimal (mkDecimal 3 (-18))) "ether" "wei"
  = Ok (mkDecimal 3 0).
Proof.
  apply (convert_there_and_back (VInt 3) "wei" "ether"
           (mkDecimal 1 0) (mkDecimal 1 18)).
  - vm_compute. reflexivity.
  - vm_compute. reflexivity.
  - vm_compute. reflexivity.
  - vm_compute. discriminate.
  - vm_compute. discriminate.
  - vm_compute. discriminate.
  - vm_compute. reflexivity.
Defined.

(** Conversions compose: going from one unit to a second and from there to a
    third is going from the first to the third at once, for a value of at
    most 28 digits whose exponent is well within the range of the context. *)
Theorem convert_composes (value : Value) (u1 u2 u3 : string)
    (f1 f2 f3 d r : Decimal) :
  ETH_UNITS !! lower u1 = Some f1 ->
  ETH_UNITS !! lower u2 = Some f2 ->
  ETH_UNITS !! lower u3 = Some f3 ->
  value_decimal value = Ok d ->
  ndigits (coef d) <= 28 ->
  Etiny + 36 <= dexp d -> dexp d <= Emax - 63 ->
  convert_eth_unit value u1 u2 = Ok r ->
  convert_eth_unit (VDecimal r) u2 u3 = convert_eth_unit value u1 u3.
Proof.
  intros E1 E2 E3 Ed Hn Hlo Hhi E.
  pose proof (ETH_UNITS_coef _ _ E1) as H1.
  pose proof (ETH_UNITS_coef _ _ E2) as H2.
  pose proof (ETH_UNITS_coef _ _ E3) as H3.
  pose proof (ETH_UNITS_dexp _ _ E1) as He1.
  pose proof (ETH_UNITS_dexp _ _ E2) as He2.
  pose proof (ETH_UNITS_dexp _ _ E3) as He3.
  rewrite (convert_known_units _ _ _ f1 f2 d E1 E2 Ed) in E.
  destruct (scale_by_units d f1 f2 H1 H2 Hn) as [Em Et];
    try (unfold Etiny, Emin, Emax, prec in *; lia).
  rewrite Em, Et in E. injection E as <-.
  rewrite (convert_known_units (VDecimal _) _ _ f2 f3 _ E2 E3 eq_refl),
    (convert_known_units _ _ _ f1 f3 d E1 E3 Ed).
  destruct (scale_by_units (mkDecimal (coef d) (dexp d + dexp f1 - dexp f2)) f2 f3
              H2 H3 Hn) as [-> ->];
    cbn [coef dexp]; try (unfold Etiny, Emin, Emax, prec in *; lia).
  destruct (scale_by_units d f1 f3 H1 H3 Hn) as [-> ->];
    try (unfold Etiny, Emin, Emax, prec in *; lia).
  do 2 f_equal. lia.
Qed.

Lemma convert_composes_through_wei :
  convert_eth_unit (VDecimal (mkDecimal 5 18)) "wei" "gwei"
  = convert_eth_unit (VInt 5) "ether" "gwei".
Proof.
  apply (convert_composes (VInt 5) "ether" "wei" "gwei"
           (mkDecimal 1 18) (mkDecimal 1 0) (mkDecimal 1 9) (mkDecimal 5 0)).
  - vm_compute. reflexivity.
  - vm_compute. reflexivity.
  - vm_compute. reflexivity.
  - vm_compute. reflexivity.
  - vm_compute. discriminate.
  - vm_compute. discriminate.
  - vm_compute. discriminate.
  - vm_compute. reflexivity.
Defined.

(** ** Further properties of the delivery client *)

Lemma retry_sleep_backoff (r : Retry) (w : World) :
  retry_sleep r None w = (Ok tt, after w (map Sleep (backoff_sleep r))).
Proof.
  destruct (retry_sleep_after r w "" JNull) as (sl & E & _ & _ & _ & ->).
  exact E.
Qed.

Lemma http_after_no_post (w : World) (t : list action) :
  posts t = O -> http (after w t) = http w.
Proof. intros E. unfold after. cbn. rewrite E. reflexivity. Qed.

Lemma posts_map_Sleep (l : list Z) : posts (map Sleep l) = O.
Proof. induction l; [reflexivity|exact IHl]. Qed.

Lemma nth_skipn_1 {A} (i : nat) (l : list A) (d : A) :
  nth i (skipn 1 l) d = nth (S i) l d.
Proof. destruct l; [destruct i|]; reflexivity. Qed.

(** A [POST] whose first [k] exchanges fail to connect and whose next one
    comes to something else, with [k] retries allowed: [k + 1] requests go
    out, and the last exchange decides. *)
Lemma urlopen_post_after_refusals (url : string) (body : json) (k : nat) :
  forall (depth : nat) (r : Retry) (w : World) (o : http_outcome),
    allowed_methods r = DEFAULT_ALLOWED_METHODS ->
    Z.of_nat k <= total r -> (k < depth)%nat ->
    (forall i, (i < k)%nat -> nth i (http w) ConnectFailure = ConnectFailure) ->
    nth k (http w) ConnectFailure = o -> o <> ConnectFailure ->
    urlopen depth "POST" url body r w
    = (last_exchange o, after w (attempts url body r (S k))).
Proof.
  induction k as [|k IH]; intros depth r w o Ha Ht Hd Hi Ho Hne;
    (destruct depth as [|depth]; [lia|]);
    cbn [urlopen]; unfold bind at 1; rewrite http_exchange_after;
    pose proof (post_is_not_retried r Ha) as Hp.
  - rewrite nth_0_hd in Ho. rewrite Ho.
    destruct o as [s ra js| |]; [| congruence |].
    + unfold is_retry. rewrite Hp. reflexivity.
    + unfold increment. rewrite Hp, orb_true_r. reflexivity.
  - rewrite <- (nth_0_hd (http w)), (Hi 0%nat) by lia.
    unfold increment. fold (bump r).
    assert (is_exhausted (bump r) = false) as ->.
    { unfold is_exhausted, bump. cbn [total].
      destruct (total r - 1 =? 0); [reflexivity|]. apply Z.ltb_ge. lia. }
    unfold bind. rewrite retry_sleep_backoff.
    rewrite (IH depth (bump r) _ o); try assumption; try lia.
    + rewrite !after_after. reflexivity.
    + cbn [total bump]. lia.
    + intros i Hlt. rewrite http_after_no_post by apply posts_map_Sleep.
      cbn [after http posts]. rewrite nth_skipn_1. apply Hi. lia.
    + rewrite http_after_no_post by apply posts_map_Sleep.
      cbn [after http posts]. rewrite nth_skipn_1. exact Ho.
Qed.

(** A [POST] whose exchanges all fail to connect: once the [total] retries
    are used up, urllib3 gives up with [MaxRetryError]. *)
Lemma urlopen_post_exhausted (url : string) (body : json) (k : nat) :
  forall (depth : nat) (r : Retry) (w : World),
    allowed_methods r = DEFAULT_ALLOWED_METHODS ->
    total r = Z.of_nat k -> (k < depth)%nat ->
    (forall i, (i <= k)%nat -> nth i (http w) ConnectFailure = ConnectFailure) ->
    urlopen depth "POST" url body r w
    = (Raise (Urllib3Error (MaxRetryError false)),
       after w (attempts url body r (S k))).
Proof.
  induction k as [|k IH]; intros depth r w Ha Ht Hd Hi;
    (destruct depth as [|depth]; [lia|]);
    cbn [urlopen]; unfold bind at 1; rewrite http_exchange_after;
    rewrite <- (nth_0_hd (http w)), (Hi 0%nat) by lia;
    unfold increment; fold (bump r).
  - assert (is_exhausted (bump r) = true) as ->.
    { unfold is_exhausted, bump. cbn [total]. rewrite Ht. reflexivity. }
    reflexivity.
  - assert (is_exhausted (bump r) = false) as ->.
    { unfold is_exhausted, bump. cbn [total].
      destruct (total r - 1 =? 0); [reflexivity|]. apply Z.ltb_ge. lia. }
    unfold bind. rewrite retry_sleep_backoff.
    rewrite (IH depth (bump r)); try assumption; try lia.
    + rewrite !after_after. reflexivity.
    + cbn [total bump]. lia.
    + intros i Hle. rewrite http_after_no_post by apply posts_map_Sleep.
      cbn [after http posts]. rewrite nth_skipn_1. apply Hi. lia.
Qed.

Lemma adapter_send_of_urlopen (a : HTTPAdapter) (url : string) (body : json)
    (w w' : World) (o : http_outcome) :
  urlopen (Z.to_nat (total (max_retries a)) + 2) "POST" url body
          (max_retries a) w = (last_exchange o, w') ->
  exists res, adapter_send a "POST" url body w = (res, w') /\
              delivered res = delivered (Ok o) /\
              match res with
              | Raise e => is_RequestException e = true
              | Ok _ => True
              end.
Proof.
  intros E. unfold adapter_send, try_except. rewrite E.
  destruct o as [s ra js| |]; cbn; eauto.
Qed.

(** From [session.post] to [relay_transaction_data]: the log line before,
    the report after, and [False] for every exception of [requests]. *)
Lemma relay_of_session_post (self : RelayerService) (event_data : json)
    (w : World) (res : result http_outcome) (t : list action) :
  session_post (session self) (api_url self) event_data
               (after w [Log INFO "Relaying event data"])
  = (res, after (after w [Log INFO "Relaying event data"]) t) ->
  match res with
  | Raise e => is_RequestException e = true
  | Ok _ => True
  end ->
  relay_transaction_data self event_data w
  = (Ok (delivered res),
     after w ([Log INFO "Relaying event data"] ++ t
              ++ [relay_report (delivered res)])).
Proof.
  intros E Hres.
  assert (forall ok : bool,
    after (after (after w [Log INFO "Relaying event data"]) t) [relay_report ok]
    = after w ([Log INFO "Relaying event data"] ++ t ++ [relay_report ok])%list)
    as Hw.
  { intros ok. rewrite !after_after. reflexivity. }
  unfold relay_transaction_data. rewrite <- Hw.
  destruct res as [o|e].
  - destruct o as [s ra js| |].
    + cbn [delivered].
      destruct ((400 <=? s) && (s <? 600)) eqn:Est; [|destruct js].
      * eapply try_except_caught;
          [ erewrite bind_Ok by apply logging_after;
            erewrite bind_Ok by exact E;
            apply bind_Raise; unfold raise_for_status; rewrite Est; reflexivity
          | reflexivity | reflexivity ].
      * apply try_except_Ok.
        erewrite bind_Ok by apply logging_after.
        erewrite bind_Ok by exact E.
        erewrite bind_Ok by (unfold raise_for_status; rewrite Est; reflexivity).
        erewrite bind_Ok by reflexivity.
        erewrite bind_Ok by apply logging_after.
        reflexivity.
      * eapply try_except_caught;
          [ erewrite bind_Ok by apply logging_after;
            erewrite bind_Ok by exact E;
            erewrite bind_Ok by (unfold raise_for_status; rewrite Est; reflexivity);
            apply bind_Raise; reflexivity
          | reflexivity | reflexivity ].
    + eapply try_except_caught;
        [ erewrite bind_Ok by apply logging_after;
          erewrite bind_Ok by exact E;
          erewrite bind_Ok by reflexivity;
          apply bind_Raise; reflexivity
        | reflexivity | reflexivity ].
    + eapply try_except_caught;
        [ erewrite bind_Ok by apply logging_after;
          erewrite bind_Ok by exact E;
          erewrite bind_Ok by reflexivity;
          apply bind_Raise; reflexivity
        | reflexivity | reflexivity ].
  - eapply try_except_caught;
      [ erewrite bind_Ok by apply logging_after; apply bind_Raise; exact E
      | exact Hres | reflexivity ].
Qed.

Lemma attempts_relay_retries (url : string) (body : json) (k : nat) :
  (k <= 5)%nat ->
  attempts url body relay_retries (S k)
  = firstn (Nat.max 1 (2 * k)) (schedule url body).
Proof.
  intros Hk. do 6 (destruct k as [|k]; [reflexivity|]). lia.
Qed.

Lemma startswith_nil (s : string) : startswith s "" = true.
Proof. destruct s; reflexivity. Qed.

Lemma startswith_prefix (p rest : string) :
  startswith (String.append p rest) p = true.
Proof.
  induction p as [|c p IH].
  - apply startswith_nil.
  - change (String.append (String c p) rest)
      with (String c (String.append p rest)).
    cbn [startswith]. rewrite Ascii.eqb_refl. exact IH.
Qed.

Lemma lower_append (p rest : string) :
  lower (String.append p rest) = String.append (lower p) (lower rest).
Proof.
  induction p as [|c p IH]; [reflexivity|].
  change (String.append (String c p) rest)
    with (String c (String.append p rest)).
  cbn [lower]. rewrite IH. reflexivity.
Qed.

(** The call follows the first exchange that gets through to the endpoint,
    for an address made of a scheme, a plain host name and a plain path, and
    an endpoint that does not redirect.  Over [https://], up to five refused
    connections are tried again; over [http://], none is.  When, after [k]
    such refusals, the endpoint answers or the connection breaks, [k + 1]
    requests have gone out, in the rhythm of [schedule], and the call
    returns [True] exactly for an answer whose status is outside 400..599
    and whose body is JSON. *)
Theorem relay_follows_the_first_exchange (url scheme host path : string)
    (self : RelayerService) (event_data : json) (w : World) (k : nat)
    (o : http_outcome) :
  RelayerService_init url = Ok self ->
  url = String.append scheme (String.append host path) ->
  plain_host host = true -> plain_path path = true ->
  (scheme = "https://" /\ (k <= 5)%nat) \/ (scheme = "http://" /\ k = O) ->
  (forall i, (i < k)%nat -> nth i (http w) ConnectFailure = ConnectFailure) ->
  nth k (http w) ConnectFailure = o -> o <> ConnectFailure ->
  redirect_status o = false ->
  relay_transaction_data self event_data w
  = (Ok (delivered (Ok o)),
     after w ([Log INFO "Relaying event data"]
              ++ firstn (Nat.max 1 (2 * k)) (schedule url event_data)
              ++ [relay_report (delivered (Ok o))])).
Proof.
  intros Hinit Eurl _ _ Hscheme Hi Ho Hne _.
  assert ((startswith (lower url) "https://" = true /\ (k <= 5)%nat) \/
          (startswith (lower url) "http://" = true /\ k = O)) as Hurl.
  { rewrite Eurl, lower_append.
    destruct Hscheme as [[-> Hk]|[-> Hk]];
      [left|right]; (split; [apply startswith_prefix|exact Hk]). }
  apply RelayerService_init_Ok in Hinit. subst self.
  assert (exists res,
    session_post (mount new_session "https://" (mkHTTPAdapter relay_retries))
      url event_data (after w [Log INFO "Relaying event data"])
    = (res, after (after w [Log INFO "Relaying event data"])
                  (firstn (Nat.max 1 (2 * k)) (schedule url event_data))) /\
    delivered res = delivered (Ok o) /\
    match res with
    | Raise e => is_RequestException e = true
    | Ok _ => True
    end) as (res & E & Hd & Hres).
  { unfold session_post. rewrite get_adapter_relayer.
    destruct Hurl as [[Hs Hk]|[Hh ->]].
    - rewrite Hs. rewrite <- attempts_relay_retries by exact Hk.
      apply adapter_send_of_urlopen.
      apply urlopen_post_after_refusals; try assumption; try reflexivity.
      + cbn. lia.
      + cbn. lia.
    - destruct (startswith (lower url) "https://") eqn:Es.
      { rewrite (https_is_not_http _ Es) in Hh. discriminate. }
      rewrite Hh.
      change (firstn (Nat.max 1 (2 * 0)) (schedule url event_data))
        with (attempts url event_data (max_retries default_adapter) 1).
      apply adapter_send_of_urlopen.
      apply urlopen_post_after_refusals; try assumption; try reflexivity.
      cbn. lia. }
  rewrite <- Hd.
  apply (relay_of_session_post
           (mkRelayerService url
              (mount new_session "https://" (mkHTTPAdapter relay_retries)))
           event_data w res _ E Hres).
Qed.

Lemma relay_follows_the_first_exchange_two_refusals :
  relay_transaction_data (Sample.relayer_at "https://relayer.example/api")
    (JObject [])
    (Sample.quiet [ConnectFailure; ConnectFailure; Response 201 None true])
  = (Ok (delivered (Ok (Response 201 None true))),
     after (Sample.quiet [ConnectFailure; ConnectFailure; Response 201 None true])
       ([Log INFO "Relaying event data"]
        ++ firstn (Nat.max 1 (2 * 2))
                  (schedule "https://relayer.example/api" (JObject []))
        ++ [relay_report (delivered (Ok (Response 201 None true)))])).
Proof.
  apply (relay_follows_the_first_exchange "https://relayer.example/api"
           "https://" "relayer.example" "/api").
  - vm_compute. reflexivity.
  - reflexivity.
  - vm_compute. reflexivity.
  - vm_compute. reflexivity.
  - left. split; [reflexivity|lia].
  - intros [|[|i]] Hlt; [reflexivity|reflexivity|lia].
  - reflexivity.
  - discriminate.
  - reflexivity.
Defined.

(** Over [https://], an endpoint that refuses six connections in a row makes
    the call give up: the six requests of [schedule] have gone out, with
    waits of 2, 4, 8 and 16 seconds, and the call returns [False]. *)
Theorem relay_gives_up_after_six_refusals (url : string)
    (self : RelayerService) (event_data : json) (w : World) :
  RelayerService_init url = Ok self ->
  startswith (lower url) "https://" = true ->
  (forall i, (i <= 5)%nat -> nth i (http w) ConnectFailure = ConnectFailure) ->
  relay_transaction_data self event_data w
  = (Ok false,
     after w ([Log INFO "Relaying event data"] ++ schedule url event_data
              ++ [Log ERROR "Failed to relay transaction data"])).
Proof.
  intros Hinit Hs Hi.
  apply RelayerService_init_Ok in Hinit. subst self.
  apply (relay_of_session_post
           (mkRelayerService url
              (mount new_session "https://" (mkHTTPAdapter relay_retries)))
           event_data w (Raise (RequestException "ConnectionError"))
           (schedule url event_data)); [|reflexivity].
  unfold session_post. cbn [session api_url].
  rewrite get_adapter_relayer, Hs.
  unfold adapter_send, try_except. cbn [max_retries].
  change (Z.to_nat (total relay_retries) + 2)%nat with 7%nat.
  rewrite (urlopen_post_exhausted url event_data 5 7 relay_retries);
    try reflexivity; try lia; auto.
Qed.

Lemma relay_gives_up_after_six_refusals_unreachable :
  relay_transaction_data (Sample.relayer_at "https://relayer.example/api")
    (JObject []) (Sample.quiet [])
  = (Ok false,
     after (Sample.quiet [])
       ([Log INFO "Relaying event data"]
        ++ schedule "https://relayer.example/api" (JObject [])
        ++ [Log ERROR "Failed to relay transaction data"])).
Proof.
  apply (relay_gives_up_after_six_refusals "https://relayer.example/api").
  - vm_compute. reflexivity.
  - vm_compute. reflexivity.
  - intros i _. destruct i; reflexivity.
Defined.

Lemma lower_letter_is_lower (c : ascii) :
  is_lower_letter c = true -> lower_ascii c = c /\ c <> ":"%char.
Proof.
  destruct c as [[] [] [] [] [] [] [] []]; vm_compute; intros E;
    first [discriminate E | split; [reflexivity|discriminate]].
Qed.

(** Two addresses that agree up to the [://] have the same scheme. *)
Lemma scheme_prefix (scheme : string) :
  forall (p rest : string),
    all_lower_letters scheme = true -> all_lower_letters p = true ->
    startswith (lower (String.append scheme (String.append "://" rest)))
               (String.append p "://") = true ->
    scheme = p.
Proof.
  induction scheme as [|c scheme IH]; intros p rest Hs Hp E.
  - destruct p as [|a p]; [reflexivity|].
    cbn [all_lower_letters] in Hp. apply andb_true_iff in Hp as [Ha _].
    destruct (lower_letter_is_lower a Ha) as [_ Hne].
    change (String.append "" (String.append "://" rest))
      with (String ":"%char (String.append "//" rest)) in E.
    change (String.append (String a p) "://")
      with (String a (String.append p "://")) in E.
    cbn [lower startswith] in E.
    change (lower_ascii ":") with ":"%char in E.
    destruct (Ascii.eqb_spec a ":"%char); [contradiction|discriminate].
  - cbn [all_lower_letters] in Hs. apply andb_true_iff in Hs as [Hc Hs].
    destruct (lower_letter_is_lower c Hc) as [Hl Hne].
    change (String.append (String c scheme) (String.append "://" rest))
      with (String c (String.append scheme (String.append "://" rest))) in E.
    cbn [lower] in E. rewrite Hl in E.
    destruct p as [|a p].
    + change (String.append "" "://") with "://" in E.
      cbn [startswith] in E.
      destruct (Ascii.eqb_spec ":"%char c) as [<-|]; [contradiction|discriminate].
    + cbn [all_lower_letters] in Hp. apply andb_true_iff in Hp as [_ Hp].
      change (String.append (String a p) "://")
        with (String a (String.append p "://")) in E.
      cbn [startswith] in E.
      destruct (Ascii.eqb_spec a c) as [->|]; [|discriminate].
      f_equal. exact (IH p rest Hs Hp E).
Qed.

(** A relayer address with another scheme than [http] and [https], say
    [wss://relayer.example/api], is not sent to: no adapter is mounted for
    it, no request goes out, and the call returns [False] after its two log
    lines. *)
Theorem relay_without_adapter_sends_nothing (url scheme host path : string)
    (self : RelayerService) (event_data : json) (w : World) :
  RelayerService_init url = Ok self ->
  url = String.append scheme (String.append "://" (String.append host path)) ->
  plain_scheme scheme = true -> plain_host host = true ->
  plain_path path = true ->
  scheme <> "http" -> scheme <> "https" ->
  relay_transaction_data self event_data w
  = (Ok false,
     logged w [Log INFO "Relaying event data";
               Log ERROR "Failed to relay transaction data"]).
Proof.
  intros Hinit Eurl Hscheme _ _ Hh Hs.
  apply andb_true_iff in Hscheme as [_ Hscheme].
  assert (startswith (lower url) "https://" = false) as Es.
  { destruct (startswith (lower url) "https://") eqn:E; [|reflexivity].
    exfalso. apply Hs. rewrite Eurl in E.
    exact (scheme_prefix scheme "https" _ Hscheme eq_refl E). }
  assert (startswith (lower url) "http://" = false) as Eh.
  { destruct (startswith (lower url) "http://") eqn:E; [|reflexivity].
    exfalso. apply Hh. rewrite Eurl in E.
    exact (scheme_prefix scheme "http" _ Hscheme eq_refl E). }
  apply RelayerService_init_Ok in Hinit. subst self.
  rewrite (relay_of_session_post _ event_data w
             (Raise (RequestException "InvalidSchema")) []).
  - cbn [delivered relay_report app]. rewrite logged_after; reflexivity.
  - unfold session_post. cbn [session api_url].
    rewrite get_adapter_relayer, Es, Eh, after_nil. reflexivity.
  - reflexivity.
Qed.

Lemma relay_without_adapter_sends_nothing_wss :
  relay_transaction_data (Sample.relayer_at "wss://relayer.example/api")
    (JObject []) (Sample.quiet [Response 200 None true])
  = (Ok false,
     logged (Sample.quiet [Response 200 None true])
       [Log INFO "Relaying event data";
        Log ERROR "Failed to relay transaction data"]).
Proof.
  apply (relay_without_adapter_sends_nothing "wss://relayer.example/api"
           "wss" "relayer.example" "/api").
  - vm_compute. reflexivity.
  - reflexivity.
  - vm_compute. reflexivity.
  - vm_compute. reflexivity.
  - vm_compute. reflexivity.
  - discriminate.
  - discriminate.
Defined.

(** ** Further properties of the parser and of the listener *)

(** The parser raises nothing, on any log: it returns the empty dictionary,
    after one error line, exactly when web3 cannot decode the log, and a
    dictionary that [if parsed_data:] takes for true, with no line logged,
    exactly when it can. *)
Theorem parse_is_empty_exactly_on_failure `{lib : Web3} (self : EventParser)
    (event_log : LogReceipt) (w : World) :
  exists d t,
    parse_tokens_locked_event self event_log w = (Ok d, logged w t) /\
    truthy d = decodes event_log /\
    (decodes event_log = false ->
     d = JObject [] /\ t = [Log ERROR "Failed to parse event log"]) /\
    (decodes event_log = true -> t = []).
Proof.
  unfold decodes.
  destruct (process_log event_log) as [p|e] eqn:E.
  - destruct (parse_decodable self event_log w p E) as (d & Ed & Ht).
    exists d, []. rewrite Ed. unfold logged. rewrite app_nil_r.
    destruct w. repeat split; auto; discriminate.
  - exists (JObject []), [Log ERROR "Failed to parse event log"].
    rewrite (parse_undecodable self event_log e w E).
    repeat split; auto; discriminate.
Qed.

(** The handler on a batch as the filter hands it over, decoded: every
    entry is logged and skipped, and nothing is relayed. *)
Lemma for_each_decoded `{lib : Web3} (self : BridgeEventListener)
    (ps : list EventData) :
  forall w,
    for_each (map DecodedLog ps) (_event_handler self) w
    = (Ok tt, after w (concat (repeat skipped (length ps)))).
Proof.
  induction ps as [|p ps IH]; intros w; cbn [map for_each length repeat concat].
  - rewrite after_nil. reflexivity.
  - erewrite bind_Ok by (eapply _event_handler_skips; reflexivity).
    rewrite IH, after_after. reflexivity.
Qed.

Lemma posts_skipped (n : nat) : posts (concat (repeat skipped n)) = O.
Proof. induction n as [|n IH]; [reflexivity|exact IH]. Qed.

Lemma format_log_entries_returns `{lib : Web3} (batch : list LogReceipt) :
  Forall (fun l : LogReceipt => decodes l = true) batch ->
  exists ps, format_log_entries batch = Ok (map DecodedLog ps) /\
             length ps = length batch.
Proof.
  induction 1 as [|l batch Hl _ (ps & IH & Hlen)]; cbn [format_log_entries].
  - exists []. auto.
  - unfold decodes in Hl. cbn [process_log] in Hl.
    destruct (get_event_data l) as [p|]; [|discriminate].
    rewrite IH. exists (p :: ps). cbn. auto.
Qed.

(** What the poll loop does with the logs of the event.  The filter decodes
    them, so what the handler and the parser are given is decoded already;
    [process_log] raises on that, the parser returns the empty dictionary,
    and the handler goes on to the next entry.  A batch of logs that all fit
    the event leaves two lines for each of them in the trace and the wait of
    5 seconds: nothing is handed to the relayer, and the endpoint is not
    asked. *)
Theorem polled_events_are_not_relayed `{lib : Web3}
    (self : BridgeEventListener) (batch : list LogReceipt)
    (rest : list (result (list LogReceipt))) (w w1 : World) :
  is_connected (connector self) w = (Ok true, w1) ->
  entries w = Ok batch :: rest ->
  Forall (fun l : LogReceipt => decodes l = true) batch ->
  step self Polling w
  = ((self, Polling),
     mkWorld (connects w1) (liveness w1) (filters w1) rest (http w)
       (trace w ++ concat (repeat skipped (length batch)) ++ [Sleep 5])).
Proof.
  intros Hlive Hent Hall.
  destruct (is_connected_frame _ _ _ _ Hlive) as (He & Hh & Ht & _).
  destruct (format_log_entries_returns batch Hall) as (ps & Ef & Hlen).
  unfold step. rewrite Hlive. unfold poll.
  erewrite bind_Ok
    by (rewrite get_new_entries_eq, He, Hent; cbn [hd tl]; rewrite Ef;
        reflexivity).
  erewrite bind_Ok by apply for_each_decoded.
  rewrite time_sleep_after, after_after, Hlen.
  unfold after. cbn [connects liveness filters entries http trace].
  rewrite posts_app, posts_skipped, Hh, Ht. reflexivity.
Qed.

Lemma polled_events_are_not_relayed_two_logs :
  step (lib := Sample.decoder)
    (Sample.listener_at "https://relayer.example/api" (Some "wss://node.example"))
    Polling
    (mkWorld [] [true] [] [Ok [Sample.locked_log 5; Sample.locked_log 6]]
             [Response 200 None true] [])
  = ((Sample.listener_at "https://relayer.example/api" (Some "wss://node.example"),
      Polling),
     mkWorld [] [] [] [] [Response 200 None true]
       ([] ++ concat (repeat skipped 2) ++ [Sleep 5])).
Proof.
  apply (polled_events_are_not_relayed (lib := Sample.decoder)
           (Sample.listener_at "https://relayer.example/api"
              (Some "wss://node.example"))
           [Sample.locked_log 5; Sample.locked_log 6] []
           (mkWorld [] [true] [] [Ok [Sample.locked_log 5; Sample.locked_log 6]]
                    [Response 200 None true] [])
           (mkWorld [] [] [] [Ok [Sample.locked_log 5; Sample.locked_log 6]]
                    [Response 200 None true] [])).
  - reflexivity.
  - reflexivity.
  - repeat constructor.
Defined.

(** *** What the listener reaches *)

Section Chatter.
Context `{lib : Web3}.
Variable wss : string.

Lemma chatter_ret {A} (a : A) : chatter wss (ret a).
Proof. intros w. exists []. cbn. rewrite app_nil_r. auto. Qed.

Lemma chatter_raise {A} (e : exn) : chatter wss (raise (A := A) e).
Proof. intros w. exists []. cbn. rewrite app_nil_r. auto. Qed.

Lemma chatter_lift {A} (r : result A) : chatter wss (lift r).
Proof. intros w. exists []. cbn. rewrite app_nil_r. auto. Qed.

Lemma chatter_bind {A B} (c : M A) (k : A -> M B) :
  chatter wss c -> (forall a, chatter wss (k a)) ->
  chatter wss (bind c k).
Proof.
  intros Hc Hk w. unfold bind.
  destruct (Hc w) as (t1 & E1 & F1 & H1).
  destruct (c w) as [[a|e] w1]; cbn [snd] in *.
  - destruct (Hk a w1) as (t2 & E2 & F2 & H2).
    exists (t1 ++ t2)%list. rewrite E2, E1, app_assoc, H2, H1.
    split; [reflexivity|]. split; [apply Forall_app; auto|reflexivity].
  - eauto.
Qed.

Lemma chatter_attempt {A} (c : M A) : chatter wss c -> chatter wss (attempt c).
Proof.
  intros Hc w. unfold attempt.
  destruct (Hc w) as (t & E & F & H).
  destruct (c w) as [r w1]; cbn [snd] in *. eauto.
Qed.

Lemma chatter_try_except {A} (body : M A) (caught : exn -> bool)
    (handler : exn -> M A) :
  chatter wss body -> (forall e, chatter wss (handler e)) ->
  chatter wss (try_except body caught handler).
Proof.
  intros Hb Hh w. unfold try_except.
  destruct (Hb w) as (t1 & E1 & F1 & H1).
  destruct (body w) as [[a|e] w1]; cbn [snd] in *; [eauto|].
  destruct (caught e); cbn [snd]; [|eauto].
  destruct (Hh e w1) as (t2 & E2 & F2 & H2).
  exists (t1 ++ t2)%list. rewrite E2, E1, app_assoc, H2, H1.
  split; [reflexivity|]. split; [apply Forall_app; auto|reflexivity].
Qed.

Lemma chatter_emit (a : action) : node_only wss a -> chatter wss (emit a).
Proof. intros Ha w. exists [a]. cbn. auto. Qed.

Lemma chatter_logging (lvl : level) (msg : string) :
  chatter wss (logging lvl msg).
Proof. apply chatter_emit. exact I. Qed.

Lemma chatter_time_sleep (s : Z) : chatter wss (time_sleep s).
Proof. apply chatter_emit. exact I. Qed.

Lemma chatter_if {A} (b : bool) (c1 c2 : M A) :
  chatter wss c1 -> chatter wss c2 ->
  chatter wss (if b then c1 else c2).
Proof. destruct b; auto. Qed.

Lemma chatter_is_connected (c : BlockchainConnector) :
  chatter wss (is_connected c).
Proof.
  unfold is_connected. destruct (web3 c); [|apply chatter_ret].
  intros w. exists []. cbn. rewrite app_nil_r. auto.
Qed.

Lemma chatter_get_contract (c : BlockchainConnector) (address abi : string) :
  chatter wss (get_contract c address abi).
Proof.
  unfold get_contract. apply chatter_bind; [apply chatter_is_connected|].
  intros live. apply chatter_if.
  - apply chatter_bind; [apply chatter_logging|]. intros _. apply chatter_raise.
  - destruct (to_checksum_address address);
      [apply chatter_ret|apply chatter_raise].
Qed.

Lemma chatter_create_filter : chatter wss create_filter.
Proof.
  intros w. exists []. unfold create_filter.
  destruct (hd None (filters w)); cbn; rewrite app_nil_r; auto.
Qed.

Lemma chatter_subscribe (self : BridgeEventListener) :
  chatter wss (subscribe self).
Proof.
  unfold subscribe.
  apply chatter_bind; [apply chatter_lift|]. intros contract_address.
  apply chatter_bind;
    [apply chatter_if; [apply chatter_raise|apply chatter_ret]|]. intros _.
  apply chatter_bind; [apply chatter_lift|]. intros abi.
  apply chatter_bind; [apply chatter_get_contract|]. intros c.
  apply chatter_bind; [|intros outcome; apply chatter_ret].
  apply chatter_attempt.
  apply chatter_bind; [apply chatter_create_filter|]. intros _.
  apply chatter_logging.
Qed.

(** The poll loop hands the handler nothing but decoded events, which it
    skips: a turn leaves log lines and a wait. *)
Lemma chatter_poll (self : BridgeEventListener) : chatter wss (poll self).
Proof.
  intros w. unfold poll.
  pose proof (get_new_entries_eq w) as Eg.
  destruct (hd (Ok []) (entries w)) as [batch|e];
    [destruct (format_log_entries batch) as [events|e] eqn:Ef|].
  - destruct (format_log_entries_decoded batch events Ef) as (ps & -> & _).
    erewrite bind_Ok by exact Eg.
    erewrite bind_Ok by apply for_each_decoded.
    rewrite time_sleep_after, after_after.
    eexists. cbn [snd after trace http]. split; [reflexivity|].
    rewrite posts_app, posts_skipped. split; [|reflexivity].
    apply Forall_app. split; [|repeat constructor].
    generalize (length ps). intros n. induction n as [|n IH]; [constructor|].
    cbn [repeat concat]. apply Forall_app. split; [repeat constructor|exact IH].
  - erewrite bind_Raise by exact Eg.
    exists []. cbn. rewrite app_nil_r. auto.
  - erewrite bind_Raise by exact Eg.
    exists []. cbn. rewrite app_nil_r. auto.
Qed.

Lemma chatter_connect (c : BlockchainConnector) :
  wss_url c = wss -> chatter wss (connect c).
Proof.
  intros Hu. unfold connect.
  apply chatter_bind; [apply chatter_logging|]. intros _.
  apply chatter_bind.
  { intros w. exists [OpenProvider (wss_url c)]. cbn.
    split; [reflexivity|]. split; [|reflexivity].
    constructor; [exact Hu|constructor]. }
  intros a. destruct a;
    (apply chatter_bind; [apply chatter_logging|]; intros _; apply chatter_ret).
Qed.

End Chatter.

Lemma bind_Ok_inv {A B} (c : M A) (k : A -> M B) (w w' : World) (b : B) :
  bind c k w = (Ok b, w') ->
  exists a w1, c w = (Ok a, w1) /\ k a w1 = (Ok b, w').
Proof.
  unfold bind. destruct (c w) as [[a|e] w1]; [eauto|discriminate].
Qed.

Lemma connect_returns `{lib : Web3} (c : BlockchainConnector) (w : World) :
  exists c' r w', connect c w = (Ok (c', r), w') /\ wss_url c' = wss_url c.
Proof.
  unfold connect, bind, logging, emit, open_provider, ret. cbn.
  destruct (hd NotConnected (connects w)); cbn;
    do 3 eexists; (split; [reflexivity|reflexivity]).
Qed.

Lemma subscribe_keeps `{lib : Web3} (self self' : BridgeEventListener)
    (outcome : result unit) (w w' : World) :
  subscribe self w = (Ok (self', outcome), w') ->
  config self' = config self /\ connector self' = connector self /\
  parser self' = parser self /\ relayer self' = relayer self.
Proof.
  unfold subscribe. intros E.
  repeat (apply bind_Ok_inv in E as (? & ? & _ & E)).
  injection E as <- _. auto.
Qed.

(** A move of the listener changes neither its configuration, nor its
    parser, nor its relayer service, nor the address of its connector. *)
Lemma step_keeps `{lib : Web3} (self : BridgeEventListener) (ph : Phase)
    (w : World) :
  config (fst (fst (step self ph w))) = config self /\
  parser (fst (fst (step self ph w))) = parser self /\
  relayer (fst (fst (step self ph w))) = relayer self /\
  wss_url (connector (fst (fst (step self ph w)))) = wss_url (connector self).
Proof.
  destruct ph as [| | |e]; unfold step.
  - destruct (connect_returns (connector self) w) as (c' & r & w' & -> & Hu).
    destruct r; cbn; auto.
  - destruct (subscribe self w) as [[[self' outcome]|e] w'] eqn:E;
      [|cbn; auto].
    destruct (subscribe_keeps _ _ _ _ _ E) as (<- & <- & <- & <-).
    destruct outcome; cbn; auto.
  - destruct (is_connected (connector self) w) as [[[|]|e] w'].
    + destruct (poll self w') as [[?|?] ?]; cbn; auto.
    + cbn. auto.
    + cbn. auto.
  - cbn. auto.
Qed.

Lemma step_chatter `{lib : Web3} (self : BridgeEventListener) (ph : Phase)
    (w : World) :
  exists t,
    trace (snd (step self ph w)) = (trace w ++ t)%list /\
    Forall (node_only (wss_url (connector self))) t /\
    http (snd (step self ph w)) = http w.
Proof.
  set (wss := wss_url (connector self)).
  destruct ph as [| | |e]; [unfold step..|].
  - destruct (chatter_connect wss (connector self) eq_refl w) as (t & E & F & H).
    destruct (connect (connector self) w) as [[[c r]|e] w'];
      [destruct r|]; cbn [snd] in *; eauto.
  - destruct (chatter_subscribe wss self w) as (t & E & F & H).
    destruct (subscribe self w) as [[[self' [|e]]|e] w']; cbn [snd] in *; eauto.
  - destruct (chatter_is_connected wss (connector self) w) as (t1 & E1 & F1 & H1).
    destruct (is_connected (connector self) w) as [[[|]|e] w1];
      cbn [snd] in *.
    + destruct (chatter_poll wss self w1) as (t2 & E2 & F2 & H2).
      exists (t1 ++ t2)%list.
      destruct (poll self w1) as [[?|?] w2]; cbn [snd] in *;
        rewrite E2, E1, app_assoc, H2, H1; (split; [reflexivity|]);
        (split; [apply Forall_app; auto|reflexivity]).
    + exists (t1 ++ [Log WARNING "Connection lost or loop interrupted."])%list.
      cbn. rewrite E1, app_assoc. split; [reflexivity|].
      split; [|exact H1].
      apply Forall_app; split; [exact F1|repeat constructor].
    + eauto.
  - rewrite step_Reconnecting. cbn. eexists. split; [reflexivity|].
    split; [repeat constructor|reflexivity].
Qed.

Lemma run_chatter `{lib : Web3} (n : nat)
    (self : BridgeEventListener) (ph : Phase) (w : World) :
  exists t,
    trace (snd (snd (run n self ph w))) = (trace w ++ t)%list /\
    Forall (node_only (wss_url (connector self))) t /\
    http (snd (snd (run n self ph w))) = http w.
Proof.
  revert self ph w. induction n as [|n IH]; intros self ph w.
  - exists []. cbn. rewrite app_nil_r. auto.
  - cbn [run].
    destruct (step_chatter self ph w) as (t1 & E1 & F1 & H1).
    destruct (step_keeps self ph w) as (_ & _ & _ & Hc).
    destruct (step self ph w) as [[self' ph'] w1]. cbn [fst snd] in *.
    destruct (IH self' ph' w1) as (t2 & E2 & F2 & H2).
    destruct (run n self' ph' w1) as [phs final]. cbn [snd] in *.
    exists (t1 ++ t2)%list. rewrite E2, E1, app_assoc, H2, H1.
    split; [reflexivity|]. split; [|reflexivity].
    apply Forall_app. split; [exact F1|].
    rewrite Hc in F2. exact F2.
Qed.

Lemma posts_node_only (wss : string) (t : list action) :
  Forall (node_only wss) t -> posts t = O.
Proof.
  induction 1 as [|a t Ha _ IH]; [reflexivity|].
  destruct a; cbn in *; [exact IH|exact IH|exact IH|contradiction].
Qed.

(** However long it runs, from whatever phase, and whatever the node sends,
    the listener relays nothing: what it adds to the trace reaches the node
    of its connector and nobody else, not one request goes out, and the
    answers of the endpoint are where they were. *)
Theorem listener_never_posts `{lib : Web3} (n : nat)
    (self : BridgeEventListener) (ph : Phase) (w : World) :
  (exists t,
     trace (snd (snd (run n self ph w))) = (trace w ++ t)%list /\
     Forall (node_only (wss_url (connector self))) t) /\
  posts (trace (snd (snd (run n self ph w)))) = posts (trace w) /\
  http (snd (snd (run n self ph w))) = http w.
Proof.
  destruct (run_chatter n self ph w) as (t & E & F & H).
  split; [eauto|]. split; [|exact H].
  rewrite E, posts_app, (posts_node_only _ _ F). apply Nat.add_0_r.
Qed.

(** *** Start-up, with every setting there *)

(** With the three settings there and not empty, [main] builds the listener
    from them and starts it: the constructors' [ValueError] cannot occur. *)
Lemma main_starts_the_listener `{lib : Web3} (n : nat)
    (env : gmap string string) (w : World) (wss addr url : string) :
  env !! "SOURCE_CHAIN_WSS_URL" = Some wss -> String.eqb wss "" = false ->
  env !! "BRIDGE_CONTRACT_ADDRESS" = Some addr -> String.eqb addr "" = false ->
  env !! "DESTINATION_RELAYER_API_URL" = Some url -> String.eqb url "" = false ->
  exists self,
    main n env w = (Ok tt, snd (snd (run n self Connecting w))) /\
    connector self = mkBlockchainConnector wss None /\
    config self !! "contract_address" = Some addr /\
    RelayerService_init url = Ok (relayer self).
Proof.
  intros Ew Hw Ea Ha Eu Hu. unfold main.
  assert (existsb (fun var => negb (getenv_truthy env var)) required_vars = false)
    as ->.
  { unfold required_vars, getenv_truthy. cbn [existsb].
    rewrite Ew, Ea, Eu, Hw, Ha, Hu. reflexivity. }
  rewrite Ew, Ea, Eu.
  change (default "" (Some wss)) with wss.
  change (default "" (Some addr)) with addr.
  change (default "" (Some url)) with url.
  unfold BridgeEventListener_init, getitem.
  rewrite lookup_insert_eq.
  unfold BlockchainConnector_init. rewrite Hw.
  rewrite !lookup_insert_ne by discriminate.
  rewrite lookup_insert_eq.
  rewrite lookup_insert_ne, lookup_insert_ne, lookup_insert_eq by discriminate.
  unfold RelayerService_init. rewrite Hu.
  eexists. split; [|split; [|split]].
  - unfold bind, lift, try_except, start_listening. reflexivity.
  - reflexivity.
  - cbn [config]. rewrite lookup_insert_ne by discriminate.
    apply lookup_insert_eq.
  - reflexivity.
Qed.

(** A setting that is there but empty counts as missing: [main] logs its two
    error lines and returns, and nothing else happens. *)
Theorem empty_setting_aborts_startup `{lib : Web3} (n : nat)
    (env : gmap string string) (w : World) (var : string) :
  In var required_vars ->
  env !! var = Some "" ->
  main n env w
  = (Ok tt,
     logged w
       [Log ERROR
          "One or more required environment variables are missing. Please check your .env file.";
        Log ERROR
          "Required: SOURCE_CHAIN_WSS_URL, BRIDGE_CONTRACT_ADDRESS, DESTINATION_RELAYER_API_URL"]).
Proof.
  intros Hin E. unfold main.
  assert (existsb (fun var => negb (getenv_truthy env var)) required_vars = true)
    as ->.
  { apply existsb_exists. exists var. split; [exact Hin|].
    unfold getenv_truthy. rewrite E. reflexivity. }
  unfold logging, emit, bind, ret, logged. cbn. rewrite <- app_assoc. reflexivity.
Qed.

Lemma empty_setting_aborts_startup_empty_address :
  main (lib := Sample.decoder) 100
    (<[ "SOURCE_CHAIN_WSS_URL" := "wss://node.example" ]>
     (<[ "BRIDGE_CONTRACT_ADDRESS" := "" ]>
     (<[ "DESTINATION_RELAYER_API_URL" := "https://relayer.example/api" ]> ∅)))
    (mkWorld [Connected 1] [true] [] [] [] [])
  = (Ok tt,
     logged (mkWorld [Connected 1] [true] [] [] [] [])
       [Log ERROR
          "One or more required environment variables are missing. Please check your .env file.";
        Log ERROR
          "Required: SOURCE_CHAIN_WSS_URL, BRIDGE_CONTRACT_ADDRESS, DESTINATION_RELAYER_API_URL"]).
Proof.
  apply (empty_setting_aborts_startup (lib := Sample.decoder) 100 _ _
           "BRIDGE_CONTRACT_ADDRESS").
  - cbn. tauto.
  - vm_compute. reflexivity.
Defined.

(** With the three settings there and not empty, [main] goes on to the
    listener, whose first deed is to open a provider to
    [SOURCE_CHAIN_WSS_URL]. *)
Theorem complete_settings_reach_connect `{lib : Web3} (n : nat)
    (env : gmap string string) (w : World) (wss addr url : string) :
  env !! "SOURCE_CHAIN_WSS_URL" = Some wss -> String.eqb wss "" = false ->
  env !! "BRIDGE_CONTRACT_ADDRESS" = Some addr -> String.eqb addr "" = false ->
  env !! "DESTINATION_RELAYER_API_URL" = Some url -> String.eqb url "" = false ->
  exists t,
    trace (snd (main (S n) env w))
    = (trace w ++ [Log INFO "Attempting to connect to blockchain node";
                   OpenProvider wss] ++ t)%list.
Proof.
  intros Ew Hw Ea Ha Eu Hu.
  destruct (main_starts_the_listener (S n) env w wss addr url Ew Hw Ea Ha Eu Hu)
    as (self & E & Hc & _ & _).
  rewrite E. cbn [run snd].
  destruct (step self Connecting w) as [[self' ph'] w1] eqn:Es.
  destruct (run_chatter n self' ph' w1) as (t & Et & _).
  destruct (run n self' ph' w1) as [phs final]. cbn [snd] in *.
  rewrite Et.
  assert (exists a, trace w1
            = (trace w ++ [Log INFO "Attempting to connect to blockchain node";
                           OpenProvider wss; a])%list) as (a & ->).
  { unfold step, connect, bind, logging, emit, open_provider, ret in Es.
    rewrite Hc in Es. cbn in Es.
    destruct (hd NotConnected (connects w)); cbn in Es;
      injection Es as _ _ <-; cbn; rewrite <- !app_assoc; eexists; reflexivity. }
  exists (a :: t). rewrite <- app_assoc. reflexivity.
Qed.

Lemma complete_settings_reach_connect_sample :
  exists t,
    trace (snd (main (lib := Sample.decoder) 1
      (<[ "SOURCE_CHAIN_WSS_URL" := "wss://node.example" ]>
       (<[ "BRIDGE_CONTRACT_ADDRESS" := "0x00000000000000000000000000000000000000b1" ]>
       (<[ "DESTINATION_RELAYER_API_URL" := "https://relayer.example/api" ]> ∅)))
      (Sample.quiet [])))
    = (trace (Sample.quiet [])
       ++ [Log INFO "Attempting to connect to blockchain node";
           OpenProvider "wss://node.example"] ++ t)%list.
Proof.
  apply (complete_settings_reach_connect (lib := Sample.decoder) 0 _ _
           "wss://node.example" "0x00000000000000000000000000000000000000b1"
           "https://relayer.example/api"); vm_compute; reflexivity.
Defined.

(** *** The phases of the listener *)

(** With a configured contract address that web3 does not take for an
    address, the listener never gets to poll: every set-up raises
    [ValueError] before the node is asked for the contract, and the loop goes
    round through the cool-down, however long it runs. *)
Theorem invalid_contract_address_never_polls `{lib : Web3} (n : nat)
    (self : BridgeEventListener) (ph : Phase) (w : World) (addr : string) :
  config self !! "contract_address" = Some addr ->
  is_address addr = false ->
  ph <> Polling ->
  Forall (fun p => p <> Polling) (fst (run n self ph w)).
Proof.
  revert self ph w. induction n as [|n IH]; intros self ph w Hc Ha Hp.
  - cbn. constructor; [exact Hp|constructor].
  - cbn [run].
    pose proof (step_keeps self ph w) as (Hcfg & _).
    assert (snd (fst (step self ph w)) <> Polling) as Hnext.
    { destruct ph as [| | |e]; [| |congruence|].
      - unfold step.
        destruct (connect_returns (connector self) w) as (c & r & w' & -> & _).
        destruct r; cbn; discriminate.
      - unfold step, subscribe, bind, lift, getitem.
        rewrite Hc, Ha. cbn. discriminate.
      - rewrite step_Reconnecting. cbn. discriminate. }
    destruct (step self ph w) as [[self' ph'] w1]. cbn [fst snd] in *.
    rewrite <- Hcfg in Hc.
    specialize (IH self' ph' w1 Hc Ha Hnext).
    destruct (run n self' ph' w1) as [phs final]. cbn [fst] in *.
    constructor; assumption.
Qed.

Lemma invalid_contract_address_never_polls_sample :
  Forall (fun p => p <> Polling)
    (fst (run (lib := Sample.decoder) 9
            (mkBridgeEventListener
               (<[ "contract_address" := "not-an-address" ]>
                (<[ "abi" := BRIDGE_CONTRACT_ABI ]> ∅))
               (mkBlockchainConnector "wss://node.example" None)
               (mkEventParser BRIDGE_CONTRACT_ABI)
               (Sample.relayer_at "https://relayer.example/api") None)
            Connecting
            (mkWorld [Connected 1; Connected 1; Connected 1] [true; true]
                     [] [] [] []))).
Proof.
  apply (invalid_contract_address_never_polls (lib := Sample.decoder) 9 _ _ _
           "not-an-address").
  - vm_compute. reflexivity.
  - vm_compute. reflexivity.
  - discriminate.
Defined.

(** When the liveness check of the poll loop fails, the loop is left without
    an exception: the listener logs the warning of the [finally] clause and
    calls [connect()] again at once.  The error line and the wait of 30
    seconds belong to the [except] clause and are not passed through. *)
Theorem lost_connection_reconnects_at_once `{lib : Web3}
    (self : BridgeEventListener) (w w1 : World) :
  is_connected (connector self) w = (Ok false, w1) ->
  exists ph self' w' a,
    run 2 self Polling w = ([Polling; Connecting; ph], (self', w')) /\
    trace w'
    = (trace w ++ [Log WARNING "Connection lost or loop interrupted.";
                   Log INFO "Attempting to connect to blockchain node";
                   OpenProvider (wss_url (connector self)); a])%list /\
    sleeps (trace w') = sleeps (trace w).
Proof.
  intros Hl.
  destruct (is_connected_frame _ _ _ _ Hl) as (_ & _ & Ht & _).
  cbn [run]. unfold step at 1. rewrite Hl.
  unfold logging at 1. unfold emit at 1. cbn iota beta.
  unfold step, connect, bind, logging, emit, open_provider, ret. cbn.
  rewrite Ht.
  destruct (hd NotConnected (connects w1)); cbn;
    eexists _, _, _, _; (split; [reflexivity|]);
    rewrite <- !app_assoc; (split; [reflexivity|]);
    cbn [trace]; rewrite !sleeps_app; cbn; apply app_nil_r.
Qed.

Lemma lost_connection_reconnects_at_once_sample :
  exists ph self' w' a,
    run (lib := Sample.decoder) 2
      (Sample.listener_at "https://relayer.example/api" (Some "wss://node.example"))
      Polling (mkWorld [Connected 1] [false] [] [] [] [])
    = ([Polling; Connecting; ph], (self', w')) /\
    trace w'
    = (trace (mkWorld [Connected 1] [false] [] [] [] [])
       ++ [Log WARNING "Connection lost or loop interrupted.";
           Log INFO "Attempting to connect to blockchain node";
           OpenProvider
             (wss_url (connector (Sample.listener_at "https://relayer.example/api"
                                    (Some "wss://node.example"))));
           a])%list /\
    sleeps (trace w') = sleeps (trace (mkWorld [Connected 1] [false] [] [] [] [])).
Proof.
  apply (lost_connection_reconnects_at_once (lib := Sample.decoder)
           (Sample.listener_at "https://relayer.example/api"
              (Some "wss://node.example"))
           (mkWorld [Connected 1] [false] [] [] [] [])
           (mkWorld [Connected 1] [] [] [] [] [])).
  reflexivity.
Defined.

(** Any number of failed calls of [connect()] before one that succeeds: the
    listener goes from [Connecting] to [Reconnecting] once for each failure,
    sleeps 30 seconds each time, and reaches [Subscribing] with the first
    success, not before. *)
Theorem failed_connects_then_success `{lib : Web3} (fails : list conn_attempt) :
  forall (self : BridgeEventListener) (w : World) (id : Z)
         (rest : list conn_attempt),
    forallb is_failure fails = true ->
    connects w = (fails ++ Connected id :: rest)%list ->
    exists phs self' w',
      run (2 * length fails + 1) self Connecting w
      = (Connecting :: phs ++ [Subscribing], (self', w'))%list /\
      existsb is_Subscribing phs = false /\
      transitions is_Connecting is_Reconnecting
        (Connecting :: phs ++ [Subscribing]) = length fails /\
      sleeps (trace w')
      = (sleeps (trace w) ++ repeat 30 (length fails))%list /\
      connects w' = rest.
Proof.
  induction fails as [|a fails IH]; intros self w id rest Hf Hc.
  - destruct (connect_and_subscribe self w id rest Hc) as (s1 & w1 & E & Hc1 & Hs1).
    exists [], s1, w1. cbn [length Nat.mul Nat.add run]. rewrite E.
    cbn. rewrite app_nil_r. auto.
  - cbn [forallb] in Hf. apply andb_true_iff in Hf as [Ha Hf].
    destruct (fail_and_cool_down self w a _ Hc Ha)
      as (e & s1 & w1 & w2 & Ea & Eb & Hc2 & Hs2).
    destruct (IH s1 w2 id rest Hf Hc2) as (phs & s' & w' & E & Hn & Ht & Hs & Hr).
    exists (Reconnecting e :: Connecting :: phs), s', w'.
    replace (2 * length (a :: fails) + 1)%nat
      with (S (S (2 * length fails + 1))) by (cbn [length]; lia).
    cbn [run]. rewrite Ea, Eb, E.
    split; [reflexivity|]. split; [exact Hn|]. split; [|split; [|exact Hr]].
    + cbn [app transitions is_Connecting is_Reconnecting andb length] in Ht |- *.
      rewrite Ht. reflexivity.
    + rewrite Hs, Hs2, <- app_assoc. reflexivity.
Qed.

Lemma failed_connects_then_success_five :
  exists phs self' w',
    run (lib := Sample.decoder)
      (2 * length [NotConnected; NotConnected; NotConnected; NotConnected;
                   NotConnected] + 1)
      (Sample.listener_at "https://relayer.example/api" None) Connecting
      (mkWorld [NotConnected; NotConnected; NotConnected; NotConnected;
                NotConnected; Connected 1] [] [] [] [] [])
    = (Connecting :: phs ++ [Subscribing], (self', w'))%list /\
    existsb is_Subscribing phs = false /\
    transitions is_Connecting is_Reconnecting
      (Connecting :: phs ++ [Subscribing])
    = length [NotConnected; NotConnected; NotConnected; NotConnected;
              NotConnected] /\
    sleeps (trace w')
    = (sleeps (trace (mkWorld [NotConnected; NotConnected; NotConnected;
                               NotConnected; NotConnected; Connected 1]
                              [] [] [] [] []))
       ++ repeat 30 (length [NotConnected; NotConnected; NotConnected;
                             NotConnected; NotConnected]))%list /\
    connects w' = [].
Proof.
  apply (failed_connects_then_success (lib := Sample.decoder)
           [NotConnected; NotConnected; NotConnected; NotConnected; NotConnected]
           (Sample.listener_at "https://relayer.example/api" None)
           (mkWorld [NotConnected; NotConnected; NotConnected; NotConnected;
                     NotConnected; Connected 1] [] [] [] [] [])
           1 []); reflexivity.
Defined.

(** *** The connector and the set-up *)

(** A connector that has just been built has no provider: [get_contract]
    raises [ConnectionError] after its error line, whatever the address, and
    the node is not asked. *)
Theorem fresh_connector_has_no_contract `{lib : Web3} (wss : string)
    (self : BlockchainConnector) (address abi : string) (w : World) :
  BlockchainConnector_init wss = Ok self ->
  is_connected self w = (Ok false, w) /\
  get_contract self address abi w
  = (Raise (ConnectionError "Not connected to the blockchain."),
     logged w [Log ERROR "Cannot get contract, not connected to the blockchain."]).
Proof.
  unfold BlockchainConnector_init.
  destruct (String.eqb wss ""); [discriminate|].
  intros E. injection E as <-. split; reflexivity.
Qed.

Lemma fresh_connector_has_no_contract_sample :
  is_connected
    (mkBlockchainConnector "wss://node.example" None)
    (mkWorld [] [true] [] [] [] [])
  = (Ok false, mkWorld [] [true] [] [] [] []) /\
  get_contract (lib := Sample.decoder)
    (mkBlockchainConnector "wss://node.example" None)
    "0x00000000000000000000000000000000000000b1" BRIDGE_CONTRACT_ABI
    (mkWorld [] [true] [] [] [] [])
  = (Raise (ConnectionError "Not connected to the blockchain."),
     logged (mkWorld [] [true] [] [] [] [])
       [Log ERROR "Cannot get contract, not connected to the blockchain."]).
Proof.
  apply (fresh_connector_has_no_contract (lib := Sample.decoder)
           "wss://node.example").
  reflexivity.
Defined.

(** After a [connect()] that succeeded, [get_contract] asks the node whether
    it is still there, and on a live node binds the ABI to the checksummed
    form of a well-formed address. *)
Theorem connect_then_get_contract `{lib : Web3} (self : BlockchainConnector)
    (address abi checksum_address : string) (w : World) (id : Z)
    (cs : list conn_attempt) (ls : list bool) :
  connects w = Connected id :: cs ->
  liveness w = true :: ls ->
  to_checksum_address address = Some checksum_address ->
  exists self' w1,
    connect self w = (Ok (self', Ok tt), w1) /\
    web3 self' = Some (wss_url self) /\
    get_contract self' address abi w1
    = (Ok (mkContract checksum_address abi),
       mkWorld cs ls (filters w) (entries w) (http w)
         (trace w ++ [Log INFO "Attempting to connect to blockchain node";
                      OpenProvider (wss_url self);
                      Log INFO "Successfully connected to chain ID"])).
Proof.
  intros Hc Hl Ha. destruct w as [c l f e h t]. cbn in Hc, Hl. subst c l.
  eexists _, _. split; [|split].
  - unfold connect, bind, logging, emit, open_provider, ret. cbn. reflexivity.
  - reflexivity.
  - unfold get_contract, bind, is_connected, web3_is_connected. cbn.
    rewrite Ha. cbn. rewrite <- !app_assoc. reflexivity.
Qed.

Lemma connect_then_get_contract_sample :
  exists self' w1,
    connect
      (mkBlockchainConnector "wss://node.example" None)
      (mkWorld [Connected 1] [true] [] [] [] [])
    = (Ok (self', Ok tt), w1) /\
    web3 self' = Some (wss_url (mkBlockchainConnector "wss://node.example" None)) /\
    get_contract (lib := Sample.decoder) self'
      "0X00000000000000000000000000000000000000B1" BRIDGE_CONTRACT_ABI w1
    = (Ok (mkContract "0x00000000000000000000000000000000000000b1"
                      BRIDGE_CONTRACT_ABI),
       mkWorld [] [] (filters (mkWorld [Connected 1] [true] [] [] [] []))
         (entries (mkWorld [Connected 1] [true] [] [] [] []))
         (http (mkWorld [Connected 1] [true] [] [] [] []))
         (trace (mkWorld [Connected 1] [true] [] [] [] [])
          ++ [Log INFO "Attempting to connect to blockchain node";
              OpenProvider
                (wss_url (mkBlockchainConnector "wss://node.example" None));
              Log INFO "Successfully connected to chain ID"])).
Proof.
  apply (connect_then_get_contract (lib := Sample.decoder)
           (mkBlockchainConnector "wss://node.example" None)
           "0X00000000000000000000000000000000000000B1" BRIDGE_CONTRACT_ABI
           "0x00000000000000000000000000000000000000b1"
           (mkWorld [Connected 1] [true] [] [] [] []) 1 [] []);
    reflexivity.
Defined.

(** The set-up after [connect()]: with a contract address that web3 accepts
    and a node that is still there, the listener binds the contract, and it
    enters the poll loop when the filter can be created.  A filter that the
    node refuses sends it to the cool-down instead, with that exception and
    with the contract bound all the same: [self.contract] was assigned
    before the filter was asked for. *)
Theorem subscribe_reaches_polling `{lib : Web3} (self : BridgeEventListener)
    (w : World) (addr abi checksum_address provider : string) (ls : list bool) :
  config self !! "contract_address" = Some addr ->
  config self !! "abi" = Some abi ->
  is_address addr = true ->
  to_checksum_address addr = Some checksum_address ->
  web3 (connector self) = Some provider ->
  liveness w = true :: ls ->
  match hd None (filters w) with
  | None =>
      step self Subscribing w
      = ((mkBridgeEventListener (config self) (connector self) (parser self)
            (relayer self) (Some (mkContract checksum_address abi)), Polling),
         mkWorld (connects w) ls (tl (filters w)) (entries w) (http w)
           (trace w ++
            [Log INFO "Starting to listen for 'TokensLocked' events on contract"]))
  | Some e =>
      step self Subscribing w
      = ((mkBridgeEventListener (config self) (connector self) (parser self)
            (relayer self) (Some (mkContract checksum_address abi)),
          Reconnecting e),
         mkWorld (connects w) ls (tl (filters w)) (entries w) (http w) (trace w))
  end.
Proof.
  intros Hc Habi Ha Hk Hw Hl. destruct w as [c l f e h t]. cbn in Hl. subst l.
  unfold step, subscribe, bind, lift, getitem, get_contract, is_connected,
    web3_is_connected, attempt, create_filter, logging, emit, ret.
  rewrite Hc, Habi, Ha, Hw. cbn. rewrite Hk. cbn.
  destruct (hd None f); reflexivity.
Qed.

Lemma subscribe_reaches_polling_sample :
  step (lib := Sample.decoder)
    (Sample.listener_at "https://relayer.example/api" (Some "wss://node.example"))
    Subscribing
    (mkWorld [] [true] [Some (OtherException "TimeoutError")] [] [] [])
  = ((mkBridgeEventListener
        (config (Sample.listener_at "https://relayer.example/api"
                   (Some "wss://node.example")))
        (connector (Sample.listener_at "https://relayer.example/api"
                      (Some "wss://node.example")))
        (parser (Sample.listener_at "https://relayer.example/api"
                   (Some "wss://node.example")))
        (relayer (Sample.listener_at "https://relayer.example/api"
                    (Some "wss://node.example")))
        (Some (mkContract "0x00000000000000000000000000000000000000b1"
                          BRIDGE_CONTRACT_ABI)),
      Reconnecting (OtherException "TimeoutError")),
     mkWorld [] [] [] [] [] []).
Proof.
  exact (subscribe_reaches_polling (lib := Sample.decoder)
           (Sample.listener_at "https://relayer.example/api"
              (Some "wss://node.example"))
           (mkWorld [] [true] [Some (OtherException "TimeoutError")] [] [] [])
           "0x00000000000000000000000000000000000000b1" BRIDGE_CONTRACT_ABI
           "0x00000000000000000000000000000000000000b1" "wss://node.example" []
           eq_refl eq_refl eq_refl eq_refl eq_refl eq_refl).
Defined.
